(** * ESP32 hand-gesture control: the gesture-to-command control loop

    A shallow embedding of [src/gesture.py]: the finger classifier
    ([detect_finger_states]), the debouncer ([get_stable_gesture]), the
    connection health monitor ([check_esp32_connection]), the delivery
    routine of the dispatcher ([send], the closure inside [send_command])
    and the orchestrator ([process_gestures]).

    Python floats are IEEE binary64 numbers and are modelled by Rocq's
    primitive floats; the module-level dictionaries are finite maps with
    string keys; the globals live in an explicit [State] that is threaded
    through a small state/exception/trace monad. *)

From Stdlib Require Import Floats ZArith.
From stdpp Require Import gmap strings list fin_maps pretty.

(* Decimal literals such as 0.02 denote the nearest binary64 number, as in
   Python. *)
Set Warnings "-inexact-float,-clear-no-such-hyp".


(** ** Configuration constants *)

Definition ESP32_IP : string := "192.168.4.1".
Definition BASE_URL : string := "http://" +:+ ESP32_IP.
Definition REQUEST_TIMEOUT : float := 1.0%float.
Definition MAX_RETRIES : nat := 2.
Definition CONNECTION_CHECK_INTERVAL : float := 5.0%float.

(** ** Data model *)

(** [collections.deque(maxlen=n)] holding raw boolean readings. *)
Record deque := Deque { items : list bool; maxlen : nat }.

(** [d.append(v)]: the new entry goes to the right end; a bounded deque that
    is full discards entries from the left end. *)
Definition deque_append (d : deque) (v : bool) : deque :=
  let l := items d ++ [v] in
  Deque (drop (length l - maxlen d) l) (maxlen d).

(** Python's [all] and [any] over a sequence of booleans. *)
Definition py_all (l : list bool) : bool := forallb id l.
Definition py_any (l : list bool) : bool := existsb id l.

(** Truthiness of an [Optional[bool]]: [None] and [False] are falsy. *)
Definition truthy (v : option bool) : bool :=
  match v with Some true => true | _ => false end.

(** [any(d.values())] for a dictionary of [Optional[bool]]. *)
Definition any_values (d : gmap string (option bool)) : bool :=
  existsb truthy (map_to_list d).*2.

(** [d.get(key, default)]. *)
Definition dict_get {V} (d : gmap string V) (key : string) (default : V) : V :=
  match d !! key with Some v => v | None => default end.

(** The globals of the module. *)
Record State := mkState {
  prev_states : gmap string (option bool);
  gesture_buffer : gmap string deque;
  esp32_connected : bool;
  last_connection_check : float
}.

Definition initial_prev_states : gmap string (option bool) :=
  <["thumb" := None]> (<["index" := None]> (<["middle" := None]>
  (<["ring" := None]> (<["pinky" := None]> (<["all_down" := None]> ∅))))).

Definition initial_gesture_buffer : gmap string deque :=
  <["thumb" := Deque [] 3]> (<["index" := Deque [] 3]> (<["middle" := Deque [] 3]>
  (<["ring" := Deque [] 3]> (<["pinky" := Deque [] 3]> ∅)))).

Definition initial_state : State :=
  mkState initial_prev_states initial_gesture_buffer false 0%float.

(** ** Effects *)

Inductive Level := DEBUG | INFO | WARNING | ERROR.

(** What one [requests.get] can do. [Timeout] stands for
    [requests.exceptions.Timeout] and its subclasses, [ConnectionError] for
    a [requests.exceptions.ConnectionError] that is not a timeout, and
    [OtherException] for any other exception, carrying its [str]. *)
Inductive Outcome :=
  | Response (status_code : Z) (text : string)
  | Timeout
  | ConnectionError
  | OtherException (e : string).

(** The observable actions, in program order. *)
Inductive Event :=
  | Request (url : string) (timeout : float)
  | Log (lvl : Level) (msg : string)
  | Sleep (secs : float)
  | StartThread (endpoint : string) (retries : nat).

Inductive Exn := KeyError (key : string) | IndexError.

Inductive Result (A : Type) :=
  | Ok (a : A)
  | Raised (e : Exn).
Arguments Ok {A} a.
Arguments Raised {A} e.

(** A computation reads and writes the globals, may raise, and leaves a
    trace; state changes and events made before a raise persist. *)
Definition M (A : Type) : Type := State → Result A * State * list Event.

#[global] Instance M_ret : MRet M := λ A a s, (Ok a, s, []).

#[global] Instance M_bind : MBind M := λ A B f m s,
  match m s with
  | (Ok a, s1, ev1) =>
      match f a s1 with (r, s2, ev2) => (r, s2, ev1 ++ ev2) end
  | (Raised e, s1, ev1) => (Raised e, s1, ev1)
  end.

Definition gets {A} (proj : State → A) : M A := λ s, (Ok (proj s), s, []).
Definition modify (f : State → State) : M unit := λ s, (Ok tt, f s, []).
Definition emit (e : Event) : M unit := λ s, (Ok tt, s, [e]).
Definition raise {A} (e : Exn) : M A := λ s, (Raised e, s, []).

(** [d[key]]: raises [KeyError] on a missing key. *)
Definition getitem {V} (d : gmap string V) (key : string) : M V :=
  match d !! key with Some v => mret v | None => raise (KeyError key) end.

Definition set_prev_states (p : gmap string (option bool)) : M unit :=
  modify (λ s, mkState p (gesture_buffer s) (esp32_connected s) (last_connection_check s)).
Definition set_gesture_buffer (g : gmap string deque) : M unit :=
  modify (λ s, mkState (prev_states s) g (esp32_connected s) (last_connection_check s)).
Definition set_esp32_connected (c : bool) : M unit :=
  modify (λ s, mkState (prev_states s) (gesture_buffer s) c (last_connection_check s)).
Definition set_last_connection_check (t : float) : M unit :=
  modify (λ s, mkState (prev_states s) (gesture_buffer s) (esp32_connected s) t).

Definition logger (lvl : Level) (msg : string) : M unit := emit (Log lvl msg).

(** An [if] statement without [else]. *)
Definition when (cond : bool) (body : M unit) : M unit :=
  if cond then body else mret tt.

(** ** Connection health monitor *)

(** [current_time] is what [time.time()] returns and [probe] what the
    transport does with the status request, should it be issued. *)
Definition check_esp32_connection (current_time : float) (probe : Outcome) : M bool :=
  last ← gets last_connection_check;
  if (current_time - last <? CONNECTION_CHECK_INTERVAL)%float
  then gets esp32_connected
  else
    set_last_connection_check current_time;;
    emit (Request (BASE_URL +:+ "/status") 1.0%float);;
    match probe with
    | Response status_code _ =>
        set_esp32_connected (status_code =? 200)%Z;;
        connected ← gets esp32_connected;
        when connected (logger INFO "ESP32 connection established");;
        gets esp32_connected
    | _ =>
        connected ← gets esp32_connected;
        when connected (logger WARNING "ESP32 connection lost");;
        set_esp32_connected false;;
        mret false
    end.

(** ** Command dispatcher *)

(** How one iteration of a [for] loop ends. *)
Inductive Flow := Next | Break | Return.

Fixpoint for_loop (body : nat → Flow * list Event) (iters : list nat) : list Event :=
  match iters with
  | [] => []
  | i :: rest =>
      match body i with
      | (Next, ev) => ev ++ for_loop body rest
      | (_, ev) => ev
      end
  end.

(** One pass through the body of the loop in [send]; [transport n] is what
    the [n]-th request of this delivery meets (each attempt makes one). *)
Definition send_attempt (transport : nat → Outcome) (endpoint : string)
    (retries attempt : nat) : Flow * list Event :=
  let url := BASE_URL +:+ "/led/" +:+ endpoint in
  match transport attempt with
  | Response status_code text =>
      if (status_code =? 200)%Z
      then (Return, [Request url REQUEST_TIMEOUT;
                     Log DEBUG ("Command sent: " +:+ endpoint +:+ " - " +:+ text)])
      else (Next, [Request url REQUEST_TIMEOUT; Sleep 0.1%float])
  | Timeout =>
      (Next, [Request url REQUEST_TIMEOUT;
              Log WARNING ("Timeout sending " +:+ endpoint +:+ " (attempt "
                           +:+ pretty (attempt + 1) +:+ "/" +:+ pretty retries +:+ ")");
              Sleep 0.1%float])
  | ConnectionError =>
      (Break, [Request url REQUEST_TIMEOUT;
               Log ERROR ("Connection error for " +:+ endpoint)])
  | OtherException e =>
      (Break, [Request url REQUEST_TIMEOUT;
               Log ERROR ("Error sending " +:+ endpoint +:+ ": " +:+ e)])
  end.

(** The closure [send] of [send_command]: what the delivery thread does. *)
Definition send (transport : nat → Outcome) (endpoint : string) (retries : nat) : list Event :=
  for_loop (send_attempt transport endpoint retries) (seq 0 retries).

(** [send_command] itself only starts the daemon thread and returns. *)
Definition send_command (endpoint : string) (retries : nat) : M unit :=
  emit (StartThread endpoint retries).

(** ** Stability filter *)

Definition get_stable_gesture (finger : string) (current_state : bool) : M (option bool) :=
  buffers ← gets gesture_buffer;
  buf ← getitem buffers finger;
  let buf := deque_append buf current_state in
  set_gesture_buffer (<[finger := buf]> buffers);;
  if (length (items buf) =? maxlen buf)%nat
     && (py_all (items buf) || negb (py_any (items buf)))
  then
    match last (items buf) with
    | Some v => mret (Some v)
    | None => raise IndexError
    end
  else
    prev ← gets prev_states;
    mret (dict_get prev finger None).

(** ** Finger state classifier *)

(** The pose estimator's data (MediaPipe): a hand is a fixed set of 21
    landmarks, addressed by the members of the [HandLandmark] enumeration,
    each with normalized coordinates. *)
Module Landmark.
Record t := mk { x : float; y : float }.
End Landmark.

Inductive HandLandmark :=
  | WRIST
  | THUMB_CMC | THUMB_MCP | THUMB_IP | THUMB_TIP
  | INDEX_FINGER_MCP | INDEX_FINGER_PIP | INDEX_FINGER_DIP | INDEX_FINGER_TIP
  | MIDDLE_FINGER_MCP | MIDDLE_FINGER_PIP | MIDDLE_FINGER_DIP | MIDDLE_FINGER_TIP
  | RING_FINGER_MCP | RING_FINGER_PIP | RING_FINGER_DIP | RING_FINGER_TIP
  | PINKY_MCP | PINKY_PIP | PINKY_DIP | PINKY_TIP.

Record NormalizedLandmarkList := { landmark : HandLandmark → Landmark.t }.

Definition detect_finger_states (hand_landmarks : NormalizedLandmarkList)
    : gmap string bool :=
  let thumb_tip := landmark hand_landmarks THUMB_TIP in
  let thumb_ip := landmark hand_landmarks THUMB_IP in
  let thumb_mcp := landmark hand_landmarks THUMB_MCP in
  let index_tip := landmark hand_landmarks INDEX_FINGER_TIP in
  let index_pip := landmark hand_landmarks INDEX_FINGER_PIP in
  let middle_tip := landmark hand_landmarks MIDDLE_FINGER_TIP in
  let middle_pip := landmark hand_landmarks MIDDLE_FINGER_PIP in
  let ring_tip := landmark hand_landmarks RING_FINGER_TIP in
  let ring_pip := landmark hand_landmarks RING_FINGER_PIP in
  let pinky_tip := landmark hand_landmarks PINKY_TIP in
  let pinky_pip := landmark hand_landmarks PINKY_PIP in
  let wrist := landmark hand_landmarks WRIST in
  let hand_is_right := (Landmark.x thumb_tip <? Landmark.x thumb_mcp)%float in
  let thumb_up :=
    if hand_is_right
    then (Landmark.x thumb_tip <? Landmark.x thumb_ip)%float
    else (Landmark.x thumb_ip <? Landmark.x thumb_tip)%float in
  let margin := 0.02%float in
  let index_up := (Landmark.y index_tip <? Landmark.y index_pip - margin)%float in
  let middle_up := (Landmark.y middle_tip <? Landmark.y middle_pip - margin)%float in
  let ring_up := (Landmark.y ring_tip <? Landmark.y ring_pip - margin)%float in
  let pinky_up := (Landmark.y pinky_tip <? Landmark.y pinky_pip - margin)%float in
  <["thumb" := thumb_up]> (<["index" := index_up]> (<["middle" := middle_up]>
  (<["ring" := ring_up]> (<["pinky" := pinky_up]> ∅)))).

(** ** Gesture controller *)

(** [for x in xs: acc = body(x, acc)] in the monad. *)
Fixpoint for_each {A B} (xs : list A) (acc : B) (body : A → B → M B) : M B :=
  match xs with
  | [] => mret acc
  | x :: rest => acc' ← body x acc; for_each rest acc' body
  end.

(** One of the five edge-triggered [if] statements of [process_gestures];
    they differ in the finger's name only. *)
Definition command_on_change (finger : string)
    (stable_states : gmap string (option bool)) : M unit :=
  new ← getitem stable_states finger;
  prev ← gets prev_states;
  old ← getitem prev finger;
  when (negb (bool_decide (new = old)) && negb (bool_decide (new = None)))
    (send_command (finger +:+ (if truthy new then "/on" else "/off")) MAX_RETRIES).

Definition process_gestures (hand_landmarks : NormalizedLandmarkList)
    : M (option (gmap string (option bool))) :=
  connected ← gets esp32_connected;
  if negb connected then mret None
  else
    let current_states := detect_finger_states hand_landmarks in
    stable_states ←
      for_each ["thumb"; "index"; "middle"; "ring"; "pinky"] ∅
        (λ finger stable_states,
           current_state ← getitem current_states finger;
           stable ← get_stable_gesture finger current_state;
           mret (<[finger := stable]> stable_states));
    let all_down := negb (any_values stable_states) in
    command_on_change "thumb" stable_states;;
    command_on_change "index" stable_states;;
    command_on_change "middle" stable_states;;
    command_on_change "ring" stable_states;;
    command_on_change "pinky" stable_states;;
    prev ← gets prev_states;
    when (all_down && negb (truthy (dict_get prev "all_down" (Some false))))
      (send_command "all/off" MAX_RETRIES;;
       logger INFO "All fingers down - all LEDs OFF");;
    set_prev_states (<["all_down" := Some all_down]> stable_states);;
    mret (Some stable_states).

(** ** The control loop as a machine

    The main loop interleaves calls of [process_gestures] (one per detected
    hand) with calls of [check_esp32_connection]. *)
Inductive Input :=
  | Frame (hand_landmarks : NormalizedLandmarkList)
  | Check (current_time : float) (probe : Outcome).

Definition step (i : Input) : M unit :=
  match i with
  | Frame hand_landmarks => process_gestures hand_landmarks;; mret tt
  | Check current_time probe => check_esp32_connection current_time probe;; mret tt
  end.

(** The states after each input, each with the events of that step; the
    run stops at an input whose step raises. *)
Fixpoint run (s : State) (inputs : list Input) : list (State * list Event) :=
  match inputs with
  | [] => []
  | i :: rest =>
      match step i s with
      | (Ok _, s', ev) => (s', ev) :: run s' rest
      | (Raised _, s', ev) => [(s', ev)]
      end
  end.

(** ** Vocabulary of the statements *)

Definition FINGERS : list string := ["thumb"; "index"; "middle"; "ring"; "pinky"].

(** Counting and selecting events of a trace. *)
Definition is_request (e : Event) : bool :=
  match e with Request _ _ => true | _ => false end.
Definition is_error_log (e : Event) : bool :=
  match e with Log ERROR _ => true | _ => false end.
Definition requests_made (tr : list Event) : nat := length (filter is_request tr).
Definition error_logs (tr : list Event) : nat := length (filter is_error_log tr).

(** The endpoints handed to [send_command], in dispatch order. *)
Definition dispatched (tr : list Event) : list string :=
  omap (λ e, match e with StartThread endpoint _ => Some endpoint | _ => None end) tr.

(** The two commands of a finger. *)
Definition finger_commands (finger : string) : list string :=
  [finger +:+ "/on"; finger +:+ "/off"].

(** An attempt of [send] after which the loop goes on to the next one. *)
Definition retried (o : Outcome) : bool :=
  match o with
  | Timeout => true
  | Response status_code _ => negb (status_code =? 200)%Z
  | _ => false
  end.

(** A failure that is neither a timeout nor a connection error, with a
    non-2xx response counted as one, as the specification words it. *)
Definition other_failure (o : Outcome) : bool :=
  match o with
  | Response status_code _ => negb ((200 <=? status_code)%Z && (status_code <? 300)%Z)
  | OtherException _ => true
  | _ => false
  end.

(** Example transports. *)
Definition always_timeout : nat → Outcome := λ _, Timeout.
Definition always_500 : nat → Outcome := λ _, Response 500 "Internal Server Error".
Definition timeout_then_error : nat → Outcome :=
  λ n, match n with 0 => Timeout | _ => OtherException "invalid URL" end.

(** The claim on other failures as the specification words it: an attempt
    that is made (attempts are numbered from 0) and fails in a way that is
    neither a timeout nor a connection error is the last one, and the
    delivery ends on an error-level log. *)
Definition aborts_on_other_failure (transport : nat → Outcome) (endpoint : string)
    (retries : nat) : Prop :=
  ∀ k, k < requests_made (send transport endpoint retries) →
       other_failure (transport k) = true →
       requests_made (send transport endpoint retries) = S k
       ∧ ∃ msg, last (send transport endpoint retries) = Some (Log ERROR msg).

(** The initial globals, with the connection flag raised. *)
Definition connected_state : State :=
  mkState initial_prev_states initial_gesture_buffer true 0%float.

(** A window whose entries all agree. *)
Definition agree (w : list bool) : Prop := ∀ v v', v ∈ w → v' ∈ w → v = v'.

(** A finger's debounce window is full and unanimous. *)
Definition full_and_unanimous (d : deque) : Prop :=
  length (items d) = 3 ∧ agree (items d).

(** The globals as the module keeps them: each finger has a window of
    capacity 3 and an entry in the previous-state record. *)
Definition wf_state (s : State) : Prop :=
  ∀ finger, finger ∈ FINGERS →
    (∃ d, gesture_buffer s !! finger = Some d ∧ maxlen d = 3)
    ∧ is_Some (prev_states s !! finger).

(** Reading the globals and the classifier's result by finger. *)
Definition window (s : State) (finger : string) : deque :=
  dict_get (gesture_buffer s) finger (Deque [] 3).
Definition recorded (s : State) (finger : string) : option bool :=
  dict_get (prev_states s) finger None.
Definition raw_reading (h : NormalizedLandmarkList) (finger : string) : bool :=
  dict_get (detect_finger_states h) finger false.

(** What [get_stable_gesture] returns, given the window after the append
    and the recorded value. *)
Definition stable_of (w : deque) (prev : option bool) : option bool :=
  if (length (items w) =? maxlen w)%nat
     && (py_all (items w) || negb (py_any (items w)))
  then last (items w) else prev.

(** One cycle of a connected controller, finger by finger. *)
Definition new_window (h : NormalizedLandmarkList) (s : State) (finger : string) : deque :=
  deque_append (window s finger) (raw_reading h finger).
Definition new_stable (h : NormalizedLandmarkList) (s : State) (finger : string)
    : option bool :=
  stable_of (new_window h s finger) (recorded s finger).
Definition stable_states_of (h : NormalizedLandmarkList) (s : State)
    : gmap string (option bool) :=
  <["pinky" := new_stable h s "pinky"]> (<["ring" := new_stable h s "ring"]>
  (<["middle" := new_stable h s "middle"]> (<["index" := new_stable h s "index"]>
  (<["thumb" := new_stable h s "thumb"]> ∅)))).
Definition windows_of (h : NormalizedLandmarkList) (s : State) : gmap string deque :=
  <["pinky" := new_window h s "pinky"]> (<["ring" := new_window h s "ring"]>
  (<["middle" := new_window h s "middle"]> (<["index" := new_window h s "index"]>
  (<["thumb" := new_window h s "thumb"]> (gesture_buffer s))))).

(** The events of one edge-triggered [if] statement. *)
Definition change_command (finger : string) (new old : option bool) : list Event :=
  if negb (bool_decide (new = old)) && negb (bool_decide (new = None))
  then [StartThread (finger +:+ (if truthy new then "/on" else "/off")) MAX_RETRIES]
  else [].

(** The events after the five edge-triggered statements. *)
Definition all_off_events (all_down : bool) (prev : gmap string (option bool))
    : list Event :=
  if all_down && negb (truthy (dict_get prev "all_down" (Some false)))
  then [StartThread "all/off" MAX_RETRIES; Log INFO "All fingers down - all LEDs OFF"]
  else [].

(** The commands of one finger among the dispatched ones. *)
Definition commands_for (finger : string) (tr : list Event) : list string :=
  filter (λ endpoint, endpoint ∈ finger_commands finger) (dispatched tr).

(** A right hand posed so that the classifier reads the given states. *)
Definition pose (thumb index middle ring pinky : bool) : NormalizedLandmarkList :=
  {| landmark := λ k,
       match k with
       | THUMB_MCP => Landmark.mk 0.6 0.7
       | THUMB_IP => Landmark.mk 0.5 0.6
       | THUMB_TIP => Landmark.mk (if thumb then 0.4 else 0.55) 0.5
       | INDEX_FINGER_PIP => Landmark.mk 0.45 0.5
       | INDEX_FINGER_TIP => Landmark.mk 0.45 (if index then 0.3 else 0.6)
       | MIDDLE_FINGER_PIP => Landmark.mk 0.4 0.5
       | MIDDLE_FINGER_TIP => Landmark.mk 0.4 (if middle then 0.3 else 0.6)
       | RING_FINGER_PIP => Landmark.mk 0.35 0.5
       | RING_FINGER_TIP => Landmark.mk 0.35 (if ring then 0.3 else 0.6)
       | PINKY_PIP => Landmark.mk 0.3 0.5
       | PINKY_TIP => Landmark.mk 0.3 (if pinky then 0.3 else 0.6)
       | _ => Landmark.mk 0.5 0.8
       end |}%float.

(** The globals after two cycles that read "index" up and the rest down. *)
Definition after_two_cycles : State :=
  mkState (<["all_down" := Some true]> initial_prev_states)
    (<["thumb" := Deque [false; false] 3]> (<["index" := Deque [true; true] 3]>
     (<["middle" := Deque [false; false] 3]> (<["ring" := Deque [false; false] 3]>
     (<["pinky" := Deque [false; false] 3]> ∅)))))
    true 0%float.

(** The raw readings of the end-to-end scenario: index up, the rest down. *)
Definition index_only : gmap string bool :=
  <["thumb" := false]> (<["index" := true]> (<["middle" := false]>
  (<["ring" := false]> (<["pinky" := false]> ∅)))).

(** The commands dispatched in a run, per step and altogether, and the
    value of [all_down] recorded after each step. *)
Definition commands_per_step (r : list (State * list Event)) : list (list string) :=
  map (λ p, dispatched p.2) r.
Definition commands_of_run (r : list (State * list Event)) : list string :=
  concat (commands_per_step r).
Definition all_down_per_step (r : list (State * list Event)) : list (option bool) :=
  map (λ p, recorded p.1 "all_down") r.

(** The end-to-end scenario as the specification words it: three cycles of
    a connected controller dispatch "index/on" and nothing else, and
    [all_down] is false in each. *)
Definition index_scenario_as_stated (h1 h2 h3 : NormalizedLandmarkList) : Prop :=
  let r := run connected_state [Frame h1; Frame h2; Frame h3] in
  commands_of_run r = ["index/on"]
  ∧ all_down_per_step r = [Some false; Some false; Some false].

(** Some state of the run has the finger's window full and unanimous. *)
Definition had_unanimous_window (finger : string) (r : list (State * list Event)) : Prop :=
  ∃ p, p ∈ r ∧ full_and_unanimous (window p.1 finger).

(** The claim on the initial phase as the specification words it: whenever
    a run from the initial state has dispatched a command, every finger has
    had a full and unanimous window. *)
Definition no_command_before_all_unanimous (inputs : list Input) : Prop :=
  let r := run initial_state inputs in
  commands_of_run r ≠ [] → ∀ finger, finger ∈ FINGERS → had_unanimous_window finger r.

(** [full_and_unanimous], decided. *)
Definition full_and_unanimous_b (d : deque) : bool :=
  (length (items d) =? 3)%nat && (py_all (items d) || negb (py_any (items d))).

(** The events of the iterations [a], ..., [a + m - 1] of a loop body, all
    of them run. *)
Definition iterations (body : nat → Flow * list Event) (a m : nat) : list Event :=
  concat (map (λ j, (body j).2) (seq a m)).

(** ** Vocabulary of the further properties *)

(** The globals after a cycle processed while connected, and its events. *)
Definition cycle (h : NormalizedLandmarkList) (s : State) : State :=
  mkState
    (<["all_down" := Some (negb (any_values (stable_states_of h s)))]>
       (stable_states_of h s))
    (windows_of h s) true (last_connection_check s).
Definition cycle_events (h : NormalizedLandmarkList) (s : State) : list Event :=
  change_command "thumb" (new_stable h s "thumb") (recorded s "thumb")
  ++ change_command "index" (new_stable h s "index") (recorded s "index")
  ++ change_command "middle" (new_stable h s "middle") (recorded s "middle")
  ++ change_command "ring" (new_stable h s "ring") (recorded s "ring")
  ++ change_command "pinky" (new_stable h s "pinky") (recorded s "pinky")
  ++ all_off_events (negb (any_values (stable_states_of h s))) (prev_states s).

(** The globals at the end of a run. *)
Definition final_state (s : State) (inputs : list Input) : State :=
  match last (run s inputs) with Some p => p.1 | None => s end.

(** The last [n] entries of a list. *)
Definition last_n {A} (n : nat) (l : list A) : list A := drop (length l - n) l.

(** The eleven endpoints under [/led/] that the controller serves. *)
Definition ENDPOINTS : list string :=
  ["thumb/on"; "thumb/off"; "index/on"; "index/off"; "middle/on"; "middle/off";
   "ring/on"; "ring/off"; "pinky/on"; "pinky/off"; "all/off"].

(** Events that keep the calling thread waiting. *)
Definition is_blocking (e : Event) : bool :=
  match e with Request _ _ | Sleep _ => true | _ => false end.

(** Windows within capacity, an invariant of every step. *)
Definition windows_bounded (s : State) : Prop :=
  ∀ f, f ∈ FINGERS → length (items (window s f)) ≤ 3.

(** What holds of the events of every cycle: known endpoints, each at most
    once, the default number of retries, nothing that blocks. *)
Definition default_retries (e : Event) : bool :=
  match e with
  | StartThread _ retries => bool_decide (retries = MAX_RETRIES)
  | _ => true
  end.
Definition cycle_trace_ok (ev : list Event) : Prop :=
  Forall (λ endpoint, endpoint ∈ ENDPOINTS) (dispatched ev)
  ∧ NoDup (dispatched ev)
  ∧ length (dispatched ev) ≤ 6
  ∧ forallb default_retries ev = true
  ∧ filter is_blocking ev = [].

(** ** Information overlay *)

(** One call of [cv2.putText]: text, origin, font scale, BGR colour and
    thickness (the frame, and the font, always [FONT_HERSHEY_SIMPLEX], are
    left out). *)
Module Draw.
Record t := mk {
  text : string;
  org : Z * Z;
  fontScale : float;
  color : Z * Z * Z;
  thickness : Z
}.
End Draw.

(** [str.capitalize] on ASCII strings: the first character in upper case,
    the rest in lower case. *)
Definition ascii_upper (c : Ascii.ascii) : Ascii.ascii :=
  let n := Ascii.nat_of_ascii c in
  if (97 <=? n)%nat && (n <=? 122)%nat then Ascii.ascii_of_nat (n - 32) else c.
Definition ascii_lower (c : Ascii.ascii) : Ascii.ascii :=
  let n := Ascii.nat_of_ascii c in
  if (65 <=? n)%nat && (n <=? 90)%nat then Ascii.ascii_of_nat (n + 32) else c.
Fixpoint lower (s : string) : string :=
  match s with
  | EmptyString => EmptyString
  | String c rest => String (ascii_lower c) (lower rest)
  end.
Definition capitalize (s : string) : string :=
  match s with
  | EmptyString => EmptyString
  | String c rest => String (ascii_upper c) (lower rest)
  end.

(** The [putText] of one finger in the loop of [draw_info]. *)
Definition finger_line (finger : string) (state : option bool) (y_offset : Z) : Draw.t :=
  Draw.mk (capitalize finger +:+ ": " +:+ (if truthy state then "UP" else "DOWN"))
    (10, y_offset)%Z 0.5%float
    (if truthy state then (0, 255, 0) else (100, 100, 100))%Z 2.

(** The loop over [finger_states.items()], which come in insertion order. *)
Fixpoint draw_fingers (items : list (string * option bool)) (y_offset : Z)
    : list Draw.t :=
  match items with
  | [] => []
  | (finger, state) :: rest =>
      if bool_decide (finger ≠ "all_down")
      then finger_line finger state y_offset :: draw_fingers rest (y_offset + 25)
      else draw_fingers rest y_offset
  end.

(** [draw_info(frame, finger_states, fps)]: the texts put on the frame, in
    order. [height] is [frame.shape[0]]; [finger_states] is [None] or the
    items of the dictionary; [format_1f] renders a float with one decimal,
    as the format specification [.1f] does. *)
Definition draw_info (format_1f : float → string) (height : Z)
    (finger_states : option (list (string * option bool))) (fps : float)
    (s : State) : list Draw.t :=
  let status_text :=
    if esp32_connected s then "ESP32: CONNECTED" else "ESP32: DISCONNECTED" in
  let status_color := (if esp32_connected s then (0, 255, 0) else (0, 0, 255))%Z in
  [Draw.mk status_text (10, 30)%Z 0.7%float status_color 2;
   Draw.mk ("FPS: " +:+ format_1f fps) (10, 60)%Z 0.6%float (255, 255, 255)%Z 2]
  ++ match finger_states with
     | Some ((_ :: _) as items) => draw_fingers items 100
     | _ => []
     end
  ++ [Draw.mk "Press ESC to exit" (10, height - 20)%Z 0.5%float (255, 255, 255)%Z 1].

(** ** Dictionaries with their insertion order

    A Python [dict] iterates over its keys in the order in which they were
    first set. Where the code observes that order ([draw_info] loops over
    [finger_states.items()]) a dictionary is modelled by its finite map
    together with its keys in insertion order. *)
Record pydict (V : Type) := PyDict {
  dict_map : gmap string V;
  dict_keys : list string
}.
Arguments PyDict {V} _ _.
Arguments dict_map {V} _.
Arguments dict_keys {V} _.

(** [{}]. *)
Definition dict_empty {V} : pydict V := PyDict ∅ [].

(** Where a key that is set goes: a new key goes last, a key already set
    keeps its place. *)
Definition add_key (keys : list string) (key : string) : list string :=
  if bool_decide (key ∈ keys) then keys else keys ++ [key].

(** [d[key] = v]. *)
Definition dict_setitem {V} (key : string) (v : V) (d : pydict V) : pydict V :=
  PyDict (<[key := v]> (dict_map d)) (add_key (dict_keys d) key).

(** [d.items()]. *)
Definition dict_items {V} (d : pydict V) : list (string * V) :=
  omap (λ key, (λ v, (key, v)) <$> dict_map d !! key) (dict_keys d).

(** [process_gestures] with the insertion order of [stable_states] kept:
    the same statements, the dictionary being read through its map.
    [prev_states] is set to a copy, so "all_down" is set in the copy and
    not in the dictionary that is returned. *)
Definition process_gestures_ordered (hand_landmarks : NormalizedLandmarkList)
    : M (option (pydict (option bool))) :=
  connected ← gets esp32_connected;
  if negb connected then mret None
  else
    let current_states := detect_finger_states hand_landmarks in
    stable_states ←
      for_each ["thumb"; "index"; "middle"; "ring"; "pinky"] dict_empty
        (λ finger stable_states,
           current_state ← getitem current_states finger;
           stable ← get_stable_gesture finger current_state;
           mret (dict_setitem finger stable stable_states));
    let all_down := negb (any_values (dict_map stable_states)) in
    command_on_change "thumb" (dict_map stable_states);;
    command_on_change "index" (dict_map stable_states);;
    command_on_change "middle" (dict_map stable_states);;
    command_on_change "ring" (dict_map stable_states);;
    command_on_change "pinky" (dict_map stable_states);;
    prev ← gets prev_states;
    when (all_down && negb (truthy (dict_get prev "all_down" (Some false))))
      (send_command "all/off" MAX_RETRIES;;
       logger INFO "All fingers down - all LEDs OFF");;
    set_prev_states (<["all_down" := Some all_down]> (dict_map stable_states));;
    mret (Some stable_states).

(** A computation with its result mapped. *)
Definition map_result {A B} (f : A → B) (m : M A) : M B := λ s,
  match m s with
  | (Ok a, s', ev) => (Ok (f a), s', ev)
  | (Raised e, s', ev) => (Raised e, s', ev)
  end.

(** A hand whose coordinates are all NaN. *)
Definition nan_hand : NormalizedLandmarkList :=
  {| landmark := λ _, Landmark.mk nan nan |}.

(** The controller has settled on the readings [b]: each finger's window
    holds three times its reading, which is also its recorded state, and
    the recorded [all_down] says whether no finger is up. *)
Definition settled (b : string → bool) (s : State) : Prop :=
  (∀ f, f ∈ FINGERS → items (window s f) = [b f; b f; b f] ∧ recorded s f = Some (b f))
  ∧ recorded s "all_down"
    = Some (negb (b "thumb" || b "index" || b "middle" || b "ring" || b "pinky")).

(** The globals of a connected controller after three cycles that read
    every finger up. *)
Definition all_up_state : State :=
  final_state connected_state
    [Frame (pose true true true true true); Frame (pose true true true true true);
     Frame (pose true true true true true)].

Ltac finger_mem := unfold FINGERS; repeat (first [left | right]).

(** * Properties *)

(** ** The monad *)

Lemma bind_gets {A B} (proj : State → A) (f : A → M B) s :
  (gets proj ≫= f) s = f (proj s) s.
Proof. unfold mbind, M_bind, gets. by destruct (f (proj s) s) as [[r s2] ev2]. Qed.

Lemma bind_ret {A B} (a : A) (f : A → M B) s : (mret a ≫= f) s = f a s.
Proof. unfold mbind, M_bind, mret, M_ret. by destruct (f a s) as [[r s2] ev2]. Qed.

Lemma bind_modify {B} (g : State → State) (f : unit → M B) s :
  (modify g ≫= f) s = f tt (g s).
Proof. unfold mbind, M_bind, modify. by destruct (f tt (g s)) as [[r s2] ev2]. Qed.

Lemma bind_emit {B} (e : Event) (f : unit → M B) s :
  (emit e ≫= f) s = (let '(r, s2, ev2) := f tt s in (r, s2, e :: ev2)).
Proof. unfold mbind, M_bind, emit. by destruct (f tt s) as [[r s2] ev2]. Qed.

Lemma bind_assoc {A B C} (m : M A) (f : A → M B) (g : B → M C) s :
  ((m ≫= f) ≫= g) s = (m ≫= (λ a, f a ≫= g)) s.
Proof.
  unfold mbind, M_bind. destruct (m s) as [[[a|e] s1] ev1]; [|done].
  destruct (f a s1) as [[[b|e] s2] ev2]; [|done].
  destruct (g b s2) as [[r s3] ev3]. by rewrite (assoc_L (++)).
Qed.

Lemma bind_getitem {V B} (d : gmap string V) key v (f : V → M B) s :
  d !! key = Some v → (getitem d key ≫= f) s = f v s.
Proof. intros Hk. unfold getitem. rewrite Hk. apply bind_ret. Qed.

Lemma bind_run {A B} (m : M A) (f : A → M B) s a s1 ev1 :
  m s = (Ok a, s1, ev1) →
  (m ≫= f) s = (let '(r, s2, ev2) := f a s1 in (r, s2, ev1 ++ ev2)).
Proof. intros Hm. unfold mbind, M_bind. by rewrite Hm. Qed.

(** ** Command dispatcher: the delivery loop *)

Section for_loop.
Context (body : nat → Flow * list Event).

Lemma for_loop_all_next a n :
  (∀ j, a ≤ j < a + n → (body j).1 = Next) →
  for_loop body (seq a n) = iterations body a n.
Proof.
  unfold iterations. revert a. induction n as [|n IH]; intros a Hnext; [done|].
  cbn [seq for_loop map concat].
  specialize (Hnext a ltac:(lia)) as Ha.
  destruct (body a) as [fl ev]. cbn in Ha. subst fl. cbn.
  f_equal. apply IH. intros j Hj. apply Hnext. lia.
Qed.

Lemma for_loop_stops a n k :
  a ≤ k < a + n →
  (∀ j, a ≤ j < k → (body j).1 = Next) →
  (body k).1 ≠ Next →
  for_loop body (seq a n) = iterations body a (S k - a).
Proof.
  unfold iterations. revert a. induction n as [|n IH]; intros a Hk Hnext Hstop; [lia|].
  cbn [seq for_loop].
  destruct (decide (a = k)) as [->|Hne].
  - replace (S k - k) with 1 by lia. cbn.
    destruct (body k) as [fl ev]. cbn in Hstop |- *.
    rewrite (right_id_L [] (++)). by destruct fl.
  - specialize (Hnext a ltac:(lia)) as Ha.
    replace (S k - a) with (S (k - a)) by lia. cbn [seq map concat].
    destruct (body a) as [fl ev]. cbn in Ha. subst fl. cbn.
    f_equal. rewrite (IH (S a)); [|lia| |done].
    + by replace (S k - S a) with (k - a) by lia.
    + intros j Hj. apply Hnext. lia.
Qed.

Lemma iterations_snoc a m :
  iterations body a (S m) = iterations body a m ++ (body (a + m)).2.
Proof.
  unfold iterations. rewrite seq_S, map_app, concat_app. cbn.
  by rewrite (right_id_L [] (++)).
Qed.
End for_loop.

Lemma send_attempt_flow transport endpoint retries k :
  (send_attempt transport endpoint retries k).1 = Next ↔ retried (transport k) = true.
Proof.
  unfold send_attempt, retried. destruct (transport k) as [st txt| | |e]; cbn; try done.
  destruct (st =? 200)%Z; cbn; done.
Qed.

Lemma send_attempt_one_request transport endpoint retries k :
  requests_made (send_attempt transport endpoint retries k).2 = 1.
Proof.
  unfold send_attempt. destruct (transport k) as [st txt| | |e]; try done.
  by destruct (st =? 200)%Z.
Qed.

Lemma requests_made_app tr1 tr2 :
  requests_made (tr1 ++ tr2) = requests_made tr1 + requests_made tr2.
Proof. unfold requests_made. by rewrite filter_app, length_app. Qed.

Lemma requests_made_iterations transport endpoint retries a m :
  requests_made (iterations (send_attempt transport endpoint retries) a m) = m.
Proof.
  induction m as [|m IH]; [done|].
  rewrite iterations_snoc, requests_made_app, IH, send_attempt_one_request. lia.
Qed.

(** The loop runs the attempts up to and including the first one that is
    not retried, or all [retries] of them. *)
Lemma send_until_stop transport endpoint retries k :
  k < retries →
  (∀ j, j < k → retried (transport j) = true) →
  retried (transport k) = false →
  send transport endpoint retries
  = iterations (send_attempt transport endpoint retries) 0 (S k).
Proof.
  intros Hk Hretried Hstop. unfold send.
  rewrite (for_loop_stops _ 0 retries k); [by rewrite Nat.sub_0_r|lia| |].
  - intros j Hj. apply send_attempt_flow, Hretried. lia.
  - rewrite send_attempt_flow. by rewrite Hstop.
Qed.

Lemma send_all_retried transport endpoint retries :
  (∀ j, j < retries → retried (transport j) = true) →
  send transport endpoint retries
  = iterations (send_attempt transport endpoint retries) 0 retries.
Proof.
  intros Hretried. unfold send. apply for_loop_all_next.
  intros j Hj. apply send_attempt_flow, Hretried. lia.
Qed.

(** The number of attempts never exceeds [retries], whatever the transport
    does. *)
Lemma send_requests_bound transport endpoint retries :
  requests_made (send transport endpoint retries) ≤ retries.
Proof.
  unfold send.
  enough (∀ iters, requests_made
            (for_loop (send_attempt transport endpoint retries) iters) ≤ length iters)
    as Hlen by (etrans; [apply Hlen|by rewrite length_seq]).
  induction iters as [|i iters IH]; [done|]. cbn [for_loop length].
  pose proof (send_attempt_one_request transport endpoint retries i) as Hone.
  destruct (send_attempt transport endpoint retries i) as [fl ev].
  change (requests_made ev = 1) in Hone.
  destruct fl; rewrite ?requests_made_app; lia.
Qed.

(** After [m] retried attempts the next one is made, if any remains. *)
Lemma send_retried_reaches_next transport endpoint retries m :
  (∀ j, j < m → retried (transport j) = true) →
  m < retries →
  m < requests_made (send transport endpoint retries).
Proof.
  unfold send.
  enough (∀ a n, (∀ j, a ≤ j < a + m → retried (transport j) = true) → m < n →
            m < requests_made
                  (for_loop (send_attempt transport endpoint retries) (seq a n)))
    as Hgen by (intros Hretried Hlt; apply Hgen; [intros j Hj; apply Hretried; lia|done]).
  induction m as [|m IH]; intros a n Hretried Hlt;
    (destruct n as [|n]; [lia|]); cbn [seq for_loop];
    pose proof (send_attempt_one_request transport endpoint retries a) as Hone;
    pose proof (send_attempt_flow transport endpoint retries a) as Hflow;
    destruct (send_attempt transport endpoint retries a) as [fl ev];
    change (requests_made ev = 1) in Hone;
    change (fl = Next ↔ retried (transport a) = true) in Hflow.
  - destruct fl; rewrite ?requests_made_app; lia.
  - apply proj2 in Hflow. rewrite Hflow by (apply Hretried; lia).
    rewrite requests_made_app, Hone.
    assert (m < requests_made
                  (for_loop (send_attempt transport endpoint retries) (seq (S a) n)));
      [|lia].
    apply IH; [|lia]. intros j Hj. apply Hretried. lia.
Qed.

(** C5: against a transport on which every attempt times out, the delivery
    routine makes exactly [MAX_RETRIES] = 2 requests, each followed by a
    warning and the pause, and then gives up: the trace ends there, with no
    third request. The same holds for any number [retries] of attempts. *)
Theorem send_always_timeout_attempts (transport : nat → Outcome) (endpoint : string) :
  (∀ n, transport n = Timeout) →
  requests_made (send transport endpoint MAX_RETRIES) = MAX_RETRIES
  ∧ send transport endpoint MAX_RETRIES
    = [ Request (BASE_URL +:+ "/led/" +:+ endpoint) REQUEST_TIMEOUT;
        Log WARNING ("Timeout sending " +:+ endpoint +:+ " (attempt 1/2)");
        Sleep 0.1%float;
        Request (BASE_URL +:+ "/led/" +:+ endpoint) REQUEST_TIMEOUT;
        Log WARNING ("Timeout sending " +:+ endpoint +:+ " (attempt 2/2)");
        Sleep 0.1%float ]
  ∧ ∀ retries, requests_made (send transport endpoint retries) = retries.
Proof.
  intros Htimeout.
  assert (∀ retries, requests_made (send transport endpoint retries) = retries) as Hall.
  { intros retries. rewrite send_all_retried, requests_made_iterations; [done|].
    intros j _. by rewrite Htimeout. }
  split_and!; [apply Hall| |apply Hall].
  unfold send, MAX_RETRIES. cbn [seq for_loop]. unfold send_attempt.
  rewrite !Htimeout. reflexivity.
Qed.

Lemma send_always_timeout_attempts_witness :
  requests_made (send always_timeout "thumb/on" MAX_RETRIES) = 2.
Proof.
  destruct (send_always_timeout_attempts always_timeout "thumb/on") as (Hcount & _ & _).
  - intros n. reflexivity.
  - exact Hcount.
Defined.

(** C6, as stated, fails: on a transport that answers every request with
    status 500 the failed first attempt is followed by the pause and a
    second attempt, and nothing is logged at error level. *)
Lemma send_status_500_is_retried :
  ¬ aborts_on_other_failure always_500 "thumb/on" MAX_RETRIES
  ∧ send always_500 "thumb/on" MAX_RETRIES
    = [ Request "http://192.168.4.1/led/thumb/on" 1%float; Sleep 0.1%float;
        Request "http://192.168.4.1/led/thumb/on" 1%float; Sleep 0.1%float ]
  ∧ requests_made (send always_500 "thumb/on" MAX_RETRIES) = 2
  ∧ error_logs (send always_500 "thumb/on" MAX_RETRIES) = 0.
Proof.
  split; [|by split_and!].
  intros Hclaim. destruct (Hclaim 0) as [Hcount _].
  - vm_compute. lia.
  - reflexivity.
  - vm_compute in Hcount. discriminate.
Qed.

(** C6, amended: an attempt that is reached (every earlier one was retried)
    and raises an exception other than a timeout or a connection error is
    the last one, and the delivery ends on the error-level log of that
    exception. A response whose status is not 200 is not such a failure:
    the attempt logs nothing, pauses, and the next attempt is made if one
    remains. *)
Theorem send_exception_aborts_bad_status_retries
    (transport : nat → Outcome) (endpoint : string) (retries k : nat) :
  k < retries →
  (∀ j, j < k → retried (transport j) = true) →
  (∀ e, transport k = OtherException e →
     requests_made (send transport endpoint retries) = S k
     ∧ last (send transport endpoint retries)
       = Some (Log ERROR ("Error sending " +:+ endpoint +:+ ": " +:+ e)))
  ∧ (∀ status_code text, transport k = Response status_code text →
     status_code ≠ 200%Z →
     send_attempt transport endpoint retries k
     = (Next, [Request (BASE_URL +:+ "/led/" +:+ endpoint) REQUEST_TIMEOUT;
               Sleep 0.1%float])
     ∧ (S k < retries → S k < requests_made (send transport endpoint retries))).
Proof.
  intros Hk Hreached. split.
  - intros e He.
    rewrite (send_until_stop transport endpoint retries k);
      [|done|done|by rewrite He].
    split; [apply requests_made_iterations|].
    rewrite iterations_snoc. change (0 + k) with k.
    unfold send_attempt at 2. rewrite He. cbn [snd].
    by rewrite last_app_cons, last_cons_cons.
  - intros status_code text Hresp Hne.
    assert ((status_code =? 200)%Z = false) as Hcode by by apply Z.eqb_neq.
    split.
    + unfold send_attempt. by rewrite Hresp, Hcode.
    + apply send_retried_reaches_next.
      intros j Hj. destruct (decide (j = k)) as [->|Hjk].
      * unfold retried. by rewrite Hresp, Hcode.
      * apply Hreached. lia.
Qed.

Lemma send_exception_aborts_bad_status_retries_witness :
  (requests_made (send timeout_then_error "ring/off" 5) = 2
   ∧ last (send timeout_then_error "ring/off" 5)
     = Some (Log ERROR "Error sending ring/off: invalid URL"))
  ∧ 1 < requests_made (send always_500 "ring/off" 5).
Proof.
  split.
  - refine (proj1 (send_exception_aborts_bad_status_retries
                     timeout_then_error "ring/off" 5 1 _ _) "invalid URL" _).
    + lia.
    + intros j Hj. assert (j = 0) as -> by lia. reflexivity.
    + reflexivity.
  - refine (proj2 (proj2 (send_exception_aborts_bad_status_retries
                     always_500 "ring/off" 5 0 _ _) 500%Z _ _ _) _).
    + lia.
    + intros j Hj. lia.
    + reflexivity.
    + discriminate.
    + lia.
Defined.

(** ** Connection health monitor *)

(** On binary64 numbers other than NaN, "not less than" is "at least". *)
Lemma SFcompare_antisym a b c :
  SFcompare a b = Some c → SFcompare b a = Some (CompOpp c).
Proof.
  destruct a as [sa|sa| |sa ma ea], b as [sb|sb| |sb mb eb]; cbn;
    try discriminate; try (intros [= <-]; by destruct sa || by destruct sb);
    try (intros [= <-]; by destruct sa, sb).
  intros [= <-]. f_equal. destruct sa, sb; try done.
  - rewrite (Z.compare_antisym ea eb). destruct (ea ?= eb)%Z; cbn; try done.
    f_equal. symmetry. exact (Pos.compare_cont_antisym ma mb Eq).
  - rewrite (Z.compare_antisym ea eb). destruct (ea ?= eb)%Z; cbn; try done.
    symmetry. exact (Pos.compare_cont_antisym ma mb Eq).
Qed.

Lemma float_not_ltb_leb (a b : float) :
  is_nan a = false → is_nan b = false → (a <? b)%float = false → (b <=? a)%float = true.
Proof.
  unfold is_nan.
  rewrite !FloatAxioms.eqb_spec, FloatAxioms.ltb_spec, FloatAxioms.leb_spec.
  unfold SFeqb, SFltb, SFleb. intros Ha Hb.
  destruct (SFcompare (Prim2SF a) (Prim2SF b)) as [c|] eqn:Hab.
  - rewrite (SFcompare_antisym _ _ _ Hab). by destruct c.
  - destruct (Prim2SF a) as [| | |], (Prim2SF b) as [| | |]; cbn in *; try done.
Qed.

Ltac mstep :=
  repeat first
    [ rewrite bind_assoc | rewrite bind_gets | rewrite bind_ret
    | rewrite bind_modify | rewrite bind_emit ].

(** The call without a probe: the interval has not elapsed. *)
Lemma check_cached s current_time probe :
  (current_time - last_connection_check s <? CONNECTION_CHECK_INTERVAL)%float = true →
  check_esp32_connection current_time probe s = (Ok (esp32_connected s), s, []).
Proof. intros Hlt. unfold check_esp32_connection. mstep. by rewrite Hlt. Qed.

(** The call with a probe. *)
Lemma check_probed s current_time probe :
  (current_time - last_connection_check s <? CONNECTION_CHECK_INTERVAL)%float = false →
  check_esp32_connection current_time probe s
  = match probe with
    | Response status_code _ =>
        (Ok (status_code =? 200)%Z,
         mkState (prev_states s) (gesture_buffer s) (status_code =? 200)%Z current_time,
         Request (BASE_URL +:+ "/status") 1%float
         :: if (status_code =? 200)%Z
            then [Log INFO "ESP32 connection established"] else [])
    | _ =>
        (Ok false,
         mkState (prev_states s) (gesture_buffer s) false current_time,
         Request (BASE_URL +:+ "/status") 1%float
         :: if esp32_connected s then [Log WARNING "ESP32 connection lost"] else [])
    end.
Proof.
  intros Hlt. unfold check_esp32_connection. mstep. rewrite Hlt.
  unfold set_last_connection_check, set_esp32_connected, logger. mstep.
  destruct probe as [status_code text| | |e]; mstep; cbn [esp32_connected];
    [destruct (status_code =? 200)%Z|destruct (esp32_connected s)..];
    unfold when; mstep; reflexivity.
Qed.

(** Every call returns the flag as it stands after the call. *)
Lemma check_returns_flag s current_time probe r s' ev :
  check_esp32_connection current_time probe s = (r, s', ev) →
  r = Ok (esp32_connected s').
Proof.
  destruct (current_time - last_connection_check s <? CONNECTION_CHECK_INTERVAL)%float
    eqn:Hlt.
  - rewrite check_cached by done. by intros [= <- <- <-].
  - rewrite check_probed by done.
    destruct probe; by intros [= <- <- <-].
Qed.

(** C7: a call made less than [CONNECTION_CHECK_INTERVAL] after the last
    probe issues no request, changes nothing and returns the cached flag,
    which is the value the previous call returned; a request is issued (at
    most one per call) only when the elapsed time is not below the
    interval, that is, for a clock that is not NaN, at least the interval,
    and the call then records its time as that of the last probe. *)
Theorem check_rate_limited (s : State) (t1 : float) (p1 : Outcome)
    (r1 : Result bool) (s1 : State) (ev1 : list Event) :
  check_esp32_connection t1 p1 s = (r1, s1, ev1) →
  (∀ t2 p2,
     (t2 - last_connection_check s1 <? CONNECTION_CHECK_INTERVAL)%float = true →
     check_esp32_connection t2 p2 s1 = (r1, s1, [])
     ∧ r1 = Ok (esp32_connected s1))
  ∧ requests_made ev1 ≤ 1
  ∧ (requests_made ev1 = 1 →
     (t1 - last_connection_check s <? CONNECTION_CHECK_INTERVAL)%float = false
     ∧ (is_nan (t1 - last_connection_check s) = false →
        (CONNECTION_CHECK_INTERVAL <=? t1 - last_connection_check s)%float = true)
     ∧ last_connection_check s1 = t1).
Proof.
  intros Hfirst. pose proof (check_returns_flag _ _ _ _ _ _ Hfirst) as ->.
  split; [|revert Hfirst].
  - intros t2 p2 Hlt. by rewrite check_cached.
  - destruct (t1 - last_connection_check s <? CONNECTION_CHECK_INTERVAL)%float eqn:Hlt.
    + rewrite check_cached by done. intros [= _ <- <-]. cbn. split; [lia|done].
    + rewrite check_probed by done.
      assert (is_nan (t1 - last_connection_check s) = false →
              (CONNECTION_CHECK_INTERVAL <=? t1 - last_connection_check s)%float = true)
        as Hge by (intros Hnan; by apply float_not_ltb_leb).
      destruct p1 as [status_code text| | |e]; intros [= _ <- <-];
        (split; [|done]);
        try destruct (status_code =? 200)%Z; try destruct (esp32_connected s);
        vm_compute; lia.
Qed.

Lemma check_rate_limited_witness :
  check_esp32_connection 12 Timeout
    (mkState initial_prev_states initial_gesture_buffer true 10)
  = (Ok true, mkState initial_prev_states initial_gesture_buffer true 10, []).
Proof.
  refine (proj1 (proj1 (check_rate_limited initial_state 10 (Response 200 "OK")
                          (Ok true) _ _ _) 12%float Timeout _)).
  - reflexivity.
  - reflexivity.
Defined.

(** C8 fails on the code. With the flag already true, a probe answered by
    status 200 logs "established" although the flag does not change; and a
    probe answered by status 500 takes the flag from true to false without
    logging "lost". *)
Theorem check_logging_is_not_edge_triggered :
  check_esp32_connection 10 (Response 200 "OK") connected_state
  = (Ok true,
     mkState initial_prev_states initial_gesture_buffer true 10,
     [Request "http://192.168.4.1/status" 1; Log INFO "ESP32 connection established"])
  ∧ check_esp32_connection 10 (Response 500 "") connected_state
    = (Ok false,
       mkState initial_prev_states initial_gesture_buffer false 10,
       [Request "http://192.168.4.1/status" 1]).
Proof. split; reflexivity. Qed.

(** What the code logs at a probe: "established" after every answer with
    status 200, whatever the flag was; "lost" after an exception, when the
    flag was true. *)
Lemma check_probe_logs s current_time probe r s' ev :
  (current_time - last_connection_check s <? CONNECTION_CHECK_INTERVAL)%float = false →
  check_esp32_connection current_time probe s = (r, s', ev) →
  (Log INFO "ESP32 connection established" ∈ ev
   ↔ ∃ text, probe = Response 200 text)
  ∧ (Log WARNING "ESP32 connection lost" ∈ ev
     ↔ esp32_connected s = true ∧ ∀ status_code text, probe ≠ Response status_code text).
Proof.
  intros Hlt. rewrite check_probed by done.
  destruct probe as [status_code text| | |e]; intros [= <- <- <-];
    [destruct (Z.eqb_spec status_code 200) as [->|Hcode]|destruct (esp32_connected s)..];
    rewrite !elem_of_cons, ?elem_of_nil; naive_solver.
Qed.

(** ** Finger state classifier *)

(** C9: the classifier returns a dictionary with exactly the five fingers
    as keys; the hand counts as right iff the thumb tip's x is less than the
    thumb MCP's x; the thumb is up iff tip x < IP x on a right hand and iff
    tip x > IP x on a left hand; each other finger is up iff its tip's y is
    less than its PIP's y minus 0.02. The comparisons and the subtraction
    are those of binary64 arithmetic. The result is a function of the
    landmarks alone: no global is read or written. *)
Theorem detect_finger_states_rules (hand_landmarks : NormalizedLandmarkList) :
  let px := λ k, Landmark.x (landmark hand_landmarks k) in
  let py := λ k, Landmark.y (landmark hand_landmarks k) in
  let hand_is_right := (px THUMB_TIP <? px THUMB_MCP)%float in
  detect_finger_states hand_landmarks !! "thumb"
  = Some (if hand_is_right then (px THUMB_TIP <? px THUMB_IP)%float
          else (px THUMB_IP <? px THUMB_TIP)%float)
  ∧ detect_finger_states hand_landmarks !! "index"
    = Some (py INDEX_FINGER_TIP <? py INDEX_FINGER_PIP - 0.02)%float
  ∧ detect_finger_states hand_landmarks !! "middle"
    = Some (py MIDDLE_FINGER_TIP <? py MIDDLE_FINGER_PIP - 0.02)%float
  ∧ detect_finger_states hand_landmarks !! "ring"
    = Some (py RING_FINGER_TIP <? py RING_FINGER_PIP - 0.02)%float
  ∧ detect_finger_states hand_landmarks !! "pinky"
    = Some (py PINKY_TIP <? py PINKY_PIP - 0.02)%float
  ∧ dom (detect_finger_states hand_landmarks) = list_to_set FINGERS.
Proof.
  intros px py hand_is_right. unfold detect_finger_states.
  split_and!; [by simplify_map_eq..|].
  rewrite !dom_insert_L, dom_empty_L. cbn. set_solver.
Qed.

(** Two hands that agree on the eleven coordinates read are classified
    alike. *)
Lemma detect_finger_states_deterministic (h1 h2 : NormalizedLandmarkList) :
  (∀ k, k ∈ [THUMB_TIP; THUMB_IP; THUMB_MCP] →
        Landmark.x (landmark h1 k) = Landmark.x (landmark h2 k)) →
  (∀ k, k ∈ [INDEX_FINGER_TIP; INDEX_FINGER_PIP; MIDDLE_FINGER_TIP; MIDDLE_FINGER_PIP;
             RING_FINGER_TIP; RING_FINGER_PIP; PINKY_TIP; PINKY_PIP] →
        Landmark.y (landmark h1 k) = Landmark.y (landmark h2 k)) →
  detect_finger_states h1 = detect_finger_states h2.
Proof.
  intros Hx Hy. unfold detect_finger_states.
  rewrite !Hx, !Hy by set_solver. reflexivity.
Qed.

(** ** Gesture controller *)

(** C10: while the connection flag is false, [process_gestures] returns at
    once (with [None]): no command is dispatched, nothing is logged, and
    the globals, in particular every debounce window and the previous-state
    record, are exactly as before. *)
Theorem process_gestures_disconnected (hand_landmarks : NormalizedLandmarkList)
    (s : State) :
  esp32_connected s = false →
  process_gestures hand_landmarks s = (Ok None, s, []).
Proof. intros Hoff. unfold process_gestures. mstep. by rewrite Hoff. Qed.

Lemma process_gestures_disconnected_witness :
  process_gestures (pose false true false false false) initial_state
  = (Ok None, initial_state, []).
Proof.
  apply (process_gestures_disconnected (pose false true false false false) initial_state).
  reflexivity.
Defined.

Lemma detect_finger_states_pose thumb index middle ring pinky :
  detect_finger_states (pose thumb index middle ring pinky)
  = <["thumb" := thumb]> (<["index" := index]> (<["middle" := middle]>
    (<["ring" := ring]> (<["pinky" := pinky]> ∅)))).
Proof. by destruct thumb, index, middle, ring, pinky. Qed.

(** ** Stability filter *)

Lemma py_all_true w : py_all w = true ↔ ∀ v, v ∈ w → v = true.
Proof.
  unfold py_all. rewrite forallb_forall. setoid_rewrite <- list_elem_of_In. done.
Qed.

Lemma py_any_false w : py_any w = false ↔ ∀ v, v ∈ w → v = false.
Proof.
  unfold py_any. induction w as [|b w IH]; cbn.
  - split; [|done]. intros _ v Hv. by apply elem_of_nil in Hv.
  - rewrite orb_false_iff, IH. unfold id. split.
    + intros [-> Hw] v [->|Hv]%elem_of_cons; auto.
    + intros Hall. split; [apply Hall; left|intros v Hv; apply Hall; by right].
Qed.

Lemma unanimous_agree w :
  py_all w || negb (py_any w) = true ↔ agree w.
Proof.
  rewrite orb_true_iff, negb_true_iff, py_all_true, py_any_false. unfold agree. split.
  - intros [Hall|Hall] v v' Hv Hv'; by rewrite (Hall v), (Hall v').
  - intros Hagree. destruct w as [|b w]; [left; intros v Hv; by apply elem_of_nil in Hv|].
    destruct b; [left|right]; intros v Hv; apply Hagree; [done|left|done|left].
Qed.

Lemma deque_append_maxlen d v : maxlen (deque_append d v) = maxlen d.
Proof. done. Qed.

(** A window never holds more entries than its capacity. *)
Lemma deque_append_length d v :
  length (items (deque_append d v)) = (length (items d) + 1) `min` maxlen d.
Proof. unfold deque_append. cbn. rewrite length_drop, length_app. cbn. lia. Qed.

(** The newest reading is the right end of a window of positive capacity. *)
Lemma deque_append_last d v :
  maxlen d ≠ 0 → last (items (deque_append d v)) = Some v.
Proof.
  intros Hcap. unfold deque_append. cbn.
  rewrite length_app. cbn.
  rewrite drop_app_le by lia. apply last_snoc.
Qed.

Lemma stable_of_spec w prev :
  maxlen w = 3 →
  (full_and_unanimous w → stable_of w prev = last (items w))
  ∧ (¬ full_and_unanimous w → stable_of w prev = prev).
Proof.
  intros Hcap. unfold stable_of, full_and_unanimous. rewrite Hcap.
  destruct (length (items w) =? 3)%nat eqn:Hlen;
    [apply Nat.eqb_eq in Hlen|apply Nat.eqb_neq in Hlen]; cbn.
  - destruct (py_all (items w) || negb (py_any (items w))) eqn:Hun.
    + split; [done|]. intros []. split; [done|]. by apply unanimous_agree.
    + split; [|done]. intros [_ Hagree%unanimous_agree]. congruence.
  - split; [|done]. intros [? _]. done.
Qed.

(** The debouncer in closed form. *)
Lemma get_stable_gesture_run finger current_state s d :
  gesture_buffer s !! finger = Some d →
  maxlen d ≠ 0 →
  get_stable_gesture finger current_state s
  = (Ok (stable_of (deque_append d current_state) (recorded s finger)),
     mkState (prev_states s) (<[finger := deque_append d current_state]> (gesture_buffer s))
       (esp32_connected s) (last_connection_check s),
     []).
Proof.
  intros Hbuf Hcap. unfold get_stable_gesture. mstep.
  rewrite (bind_getitem _ _ _ _ _ Hbuf). unfold set_gesture_buffer. mstep.
  unfold stable_of, recorded.
  destruct ((length (items (deque_append d current_state))
             =? maxlen (deque_append d current_state))%nat
            && (py_all (items (deque_append d current_state))
                || negb (py_any (items (deque_append d current_state))))).
  - by rewrite deque_append_last.
  - by mstep.
Qed.

(** C1: a call of [get_stable_gesture] appends the reading to the finger's
    window and returns a value that differs from the recorded one only if
    the window then holds exactly 3 entries that all agree, and then every
    entry of the window is the returned value; on a window that is not full
    or not unanimous it returns the recorded value. The record is not
    touched and the window keeps its capacity, so this holds at every call
    of any sequence of readings. *)
Theorem get_stable_gesture_debounced (finger : string) (current_state : bool)
    (s : State) (d : deque) :
  gesture_buffer s !! finger = Some d →
  maxlen d = 3 →
  ∃ (r : option bool) (s' : State) (d' : deque),
    get_stable_gesture finger current_state s = (Ok r, s', [])
    ∧ prev_states s' = prev_states s
    ∧ gesture_buffer s' !! finger = Some d'
    ∧ d' = deque_append d current_state
    ∧ maxlen d' = 3
    ∧ (r ≠ recorded s finger → full_and_unanimous d')
    ∧ (full_and_unanimous d' → ∀ v, v ∈ items d' → r = Some v)
    ∧ (¬ full_and_unanimous d' → r = recorded s finger).
Proof.
  intros Hbuf Hcap. eexists _, _, (deque_append d current_state).
  split; [apply (get_stable_gesture_run _ _ _ _ Hbuf); lia|].
  cbn [prev_states gesture_buffer].
  destruct (stable_of_spec (deque_append d current_state) (recorded s finger))
    as [Hfull Hnot]; [done|].
  split_and!; [done|by rewrite lookup_insert_eq|done|done| | |done].
  - intros Hdiff.
    destruct (decide (length (items (deque_append d current_state)) = 3)) as [Hlen|Hlen].
    + destruct (py_all (items (deque_append d current_state))
                || negb (py_any (items (deque_append d current_state)))) eqn:Hun.
      * split; [done|]. by apply unanimous_agree.
      * destruct Hdiff. apply Hnot. intros [_ Hagree%unanimous_agree]. congruence.
    + destruct Hdiff. apply Hnot. by intros [? _].
  - intros Hfu v Hv. rewrite (Hfull Hfu), deque_append_last by lia.
    f_equal. destruct Hfu as [_ Hagree]. apply Hagree; [|done].
    apply last_Some_elem_of, deque_append_last. lia.
Qed.

Lemma get_stable_gesture_debounced_witness :
  ∃ (r : option bool) (s' : State) (d' : deque),
    get_stable_gesture "index" true after_two_cycles = (Ok r, s', [])
    ∧ prev_states s' = prev_states after_two_cycles
    ∧ gesture_buffer s' !! "index" = Some d'
    ∧ d' = deque_append (Deque [true; true] 3) true
    ∧ maxlen d' = 3
    ∧ (r ≠ recorded after_two_cycles "index" → full_and_unanimous d')
    ∧ (full_and_unanimous d' → ∀ v, v ∈ items d' → r = Some v)
    ∧ (¬ full_and_unanimous d' → r = recorded after_two_cycles "index").
Proof.
  apply (get_stable_gesture_debounced "index" true after_two_cycles
           (Deque [true; true] 3)).
  - reflexivity.
  - reflexivity.
Defined.

(** ** Gesture controller: one connected cycle in closed form *)

Lemma wf_window s finger :
  wf_state s → finger ∈ FINGERS →
  gesture_buffer s !! finger = Some (window s finger) ∧ maxlen (window s finger) = 3.
Proof.
  intros Hwf Hf. destruct (Hwf finger Hf) as [(d & Hd & Hcap) _].
  unfold window, dict_get. by rewrite Hd.
Qed.

Lemma wf_recorded s finger :
  wf_state s → finger ∈ FINGERS →
  prev_states s !! finger = Some (recorded s finger).
Proof.
  intros Hwf Hf. destruct (Hwf finger Hf) as [_ [v Hv]].
  unfold recorded, dict_get. by rewrite Hv.
Qed.

Lemma raw_reading_lookup h finger :
  finger ∈ FINGERS →
  detect_finger_states h !! finger = Some (raw_reading h finger).
Proof.
  intros Hf. unfold raw_reading, dict_get, detect_finger_states.
  unfold FINGERS in Hf.
  repeat (apply elem_of_cons in Hf as [->|Hf]); [by simplify_map_eq..|].
  by apply elem_of_nil in Hf.
Qed.

(** One iteration of the debouncing loop. *)
Lemma debounce_iteration {B} h finger acc c d s (k : gmap string (option bool) → M B) :
  detect_finger_states h !! finger = Some c →
  gesture_buffer s !! finger = Some d →
  maxlen d ≠ 0 →
  ((current_state ← getitem (detect_finger_states h) finger;
    stable ← get_stable_gesture finger current_state;
    mret (<[finger := stable]> acc)) ≫= k) s
  = k (<[finger := stable_of (deque_append d c) (recorded s finger)]> acc)
      (mkState (prev_states s) (<[finger := deque_append d c]> (gesture_buffer s))
         (esp32_connected s) (last_connection_check s)).
Proof.
  intros Hraw Hbuf Hcap. rewrite bind_assoc, (bind_getitem _ _ _ _ _ Hraw), bind_assoc.
  rewrite (bind_run _ _ _ _ _ _ (get_stable_gesture_run _ c _ _ Hbuf Hcap)).
  rewrite bind_ret. by destruct (k _ _) as [[r s2] ev2].
Qed.

Lemma command_on_change_run {B} finger stable new old s (k : unit → M B) :
  stable !! finger = Some new →
  prev_states s !! finger = Some old →
  (command_on_change finger stable ≫= k) s
  = (let '(r, s2, ev2) := k tt s in (r, s2, change_command finger new old ++ ev2)).
Proof.
  intros Hnew Hold. unfold command_on_change. rewrite bind_assoc.
  rewrite (bind_getitem _ _ _ _ _ Hnew). mstep.
  rewrite (bind_getitem _ _ _ _ _ Hold). unfold change_command, when, send_command.
  destruct (negb (bool_decide (new = old)) && negb (bool_decide (new = None))).
  - by rewrite bind_emit.
  - rewrite bind_ret. by destruct (k tt s) as [[r s2] ev2].
Qed.

Lemma stable_states_of_lookup h s finger :
  finger ∈ FINGERS →
  stable_states_of h s !! finger = Some (new_stable h s finger).
Proof.
  intros Hf. unfold FINGERS in Hf. unfold stable_states_of.
  repeat (apply elem_of_cons in Hf as [->|Hf]); [by simplify_map_eq..|].
  by apply elem_of_nil in Hf.
Qed.

Lemma windows_of_lookup h s finger :
  finger ∈ FINGERS →
  windows_of h s !! finger = Some (new_window h s finger).
Proof.
  intros Hf. unfold FINGERS in Hf. unfold windows_of.
  repeat (apply elem_of_cons in Hf as [->|Hf]); [by simplify_map_eq..|].
  by apply elem_of_nil in Hf.
Qed.

Lemma process_gestures_connected h s :
  esp32_connected s = true →
  wf_state s →
  let stable := stable_states_of h s in
  let all_down := negb (any_values stable) in
  process_gestures h s
  = (Ok (Some stable),
     mkState (<["all_down" := Some all_down]> stable) (windows_of h s)
       true (last_connection_check s),
     change_command "thumb" (new_stable h s "thumb") (recorded s "thumb")
     ++ change_command "index" (new_stable h s "index") (recorded s "index")
     ++ change_command "middle" (new_stable h s "middle") (recorded s "middle")
     ++ change_command "ring" (new_stable h s "ring") (recorded s "ring")
     ++ change_command "pinky" (new_stable h s "pinky") (recorded s "pinky")
     ++ all_off_events all_down (prev_states s)).
Proof.
  intros Hconn Hwf stable all_down. unfold process_gestures. mstep.
  rewrite Hconn. cbn [negb for_each].
  destruct (wf_window s "thumb" Hwf) as [Hbt Hct]; [set_solver|].
  destruct (wf_window s "index" Hwf) as [Hbi Hci]; [set_solver|].
  destruct (wf_window s "middle" Hwf) as [Hbm Hcm]; [set_solver|].
  destruct (wf_window s "ring" Hwf) as [Hbr Hcr]; [set_solver|].
  destruct (wf_window s "pinky" Hwf) as [Hbp Hcp]; [set_solver|].
  rewrite bind_assoc.
  rewrite (debounce_iteration h "thumb" _ (raw_reading h "thumb") (window s "thumb"));
    [|apply raw_reading_lookup; set_solver|done|lia].
  rewrite bind_assoc.
  rewrite (debounce_iteration h "index" _ (raw_reading h "index") (window s "index"));
    [|apply raw_reading_lookup; set_solver|by simplify_map_eq|lia].
  rewrite bind_assoc.
  rewrite (debounce_iteration h "middle" _ (raw_reading h "middle") (window s "middle"));
    [|apply raw_reading_lookup; set_solver|by simplify_map_eq|lia].
  rewrite bind_assoc.
  rewrite (debounce_iteration h "ring" _ (raw_reading h "ring") (window s "ring"));
    [|apply raw_reading_lookup; set_solver|by simplify_map_eq|lia].
  rewrite bind_assoc.
  rewrite (debounce_iteration h "pinky" _ (raw_reading h "pinky") (window s "pinky"));
    [|apply raw_reading_lookup; set_solver|by simplify_map_eq|lia].
  rewrite bind_ret.
  cbn [prev_states gesture_buffer esp32_connected last_connection_check].
  change (recorded (mkState (prev_states s) _ _ _)) with (recorded s).
  fold (new_window h s "thumb") (new_window h s "index") (new_window h s "middle")
       (new_window h s "ring") (new_window h s "pinky").
  fold (new_stable h s "thumb") (new_stable h s "index") (new_stable h s "middle")
       (new_stable h s "ring") (new_stable h s "pinky").
  fold (stable_states_of h s) (windows_of h s). fold stable. fold all_down.
  rewrite (command_on_change_run "thumb" stable (new_stable h s "thumb") (recorded s "thumb"));
    [|apply stable_states_of_lookup; set_solver|apply (wf_recorded s); [done|set_solver]].
  rewrite (command_on_change_run "index" stable (new_stable h s "index") (recorded s "index"));
    [|apply stable_states_of_lookup; set_solver|apply (wf_recorded s); [done|set_solver]].
  rewrite (command_on_change_run "middle" stable (new_stable h s "middle") (recorded s "middle"));
    [|apply stable_states_of_lookup; set_solver|apply (wf_recorded s); [done|set_solver]].
  rewrite (command_on_change_run "ring" stable (new_stable h s "ring") (recorded s "ring"));
    [|apply stable_states_of_lookup; set_solver|apply (wf_recorded s); [done|set_solver]].
  rewrite (command_on_change_run "pinky" stable (new_stable h s "pinky") (recorded s "pinky"));
    [|apply stable_states_of_lookup; set_solver|apply (wf_recorded s); [done|set_solver]].
  mstep. cbn [prev_states]. unfold all_off_events, when, send_command, logger, set_prev_states.
  rewrite Hconn.
  destruct (all_down && negb (truthy (dict_get (prev_states s) "all_down" (Some false))));
    mstep; cbn; by rewrite ?(right_id_L [] (++)).
Qed.

Lemma dispatched_app tr1 tr2 : dispatched (tr1 ++ tr2) = dispatched tr1 ++ dispatched tr2.
Proof. unfold dispatched. apply omap_app. Qed.

Lemma commands_for_app finger tr1 tr2 :
  commands_for finger (tr1 ++ tr2) = commands_for finger tr1 ++ commands_for finger tr2.
Proof. unfold commands_for. by rewrite dispatched_app, filter_app. Qed.

Lemma dispatched_change_command finger new old :
  dispatched (change_command finger new old)
  = if decide (new ≠ old ∧ new ≠ None)
    then [finger +:+ (if truthy new then "/on" else "/off")] else [].
Proof.
  unfold change_command.
  destruct new as [[]|], old as [[]|]; cbn; case_decide; naive_solver.
Qed.

(** A finger's statement dispatches that finger's commands only. *)
Lemma commands_for_change_command f g new old :
  f ∈ FINGERS → g ∈ FINGERS →
  commands_for f (change_command g new old)
  = if decide (f = g) then dispatched (change_command g new old) else [].
Proof.
  unfold FINGERS, change_command. intros Hf Hg.
  repeat (apply elem_of_cons in Hf as [->|Hf]); [..|by apply elem_of_nil in Hf];
    (repeat (apply elem_of_cons in Hg as [->|Hg]); [..|by apply elem_of_nil in Hg]);
    destruct (negb (bool_decide (new = old)) && negb (bool_decide (new = None)));
    try reflexivity; by destruct (truthy new).
Qed.

Lemma commands_for_all_off f all_down prev :
  f ∈ FINGERS → commands_for f (all_off_events all_down prev) = [].
Proof.
  unfold FINGERS, all_off_events. intros Hf.
  destruct (all_down && negb (truthy (dict_get prev "all_down" (Some false))));
    [|done].
  repeat (apply elem_of_cons in Hf as [->|Hf]); [done..|by apply elem_of_nil in Hf].
Qed.

(** What a connected cycle dispatches for one finger. *)
Lemma process_gestures_commands_for h s f r s' ev :
  esp32_connected s = true → wf_state s → f ∈ FINGERS →
  process_gestures h s = (r, s', ev) →
  commands_for f ev
  = if decide (new_stable h s f ≠ recorded s f ∧ new_stable h s f ≠ None)
    then [f +:+ (if truthy (new_stable h s f) then "/on" else "/off")] else [].
Proof.
  intros Hconn Hwf Hf. rewrite process_gestures_connected by done.
  intros [= _ _ <-]. rewrite !commands_for_app, commands_for_all_off by done.
  rewrite !commands_for_change_command by (done || set_solver).
  rewrite <- dispatched_change_command. unfold FINGERS in Hf.
  repeat (apply elem_of_cons in Hf as [->|Hf]); [..|by apply elem_of_nil in Hf];
    repeat case_decide; try done; by rewrite ?(right_id_L [] (++)).
Qed.

(** A connected cycle leaves the globals well formed. *)
Lemma process_gestures_wf h s all_down t :
  wf_state s →
  wf_state (mkState (<["all_down" := Some all_down]> (stable_states_of h s))
              (windows_of h s) true t).
Proof.
  intros Hwf f Hf. cbn [gesture_buffer prev_states]. split.
  - exists (new_window h s f). split; [by apply windows_of_lookup|].
    unfold new_window. rewrite deque_append_maxlen. by apply wf_window.
  - exists (new_stable h s f). rewrite lookup_insert_ne.
    + by apply stable_states_of_lookup.
    + intros <-. unfold FINGERS in Hf.
      repeat (apply elem_of_cons in Hf as [[=]|Hf]). by apply elem_of_nil in Hf.
Qed.

Lemma process_gestures_recorded h s all_down t f :
  f ∈ FINGERS →
  recorded (mkState (<["all_down" := Some all_down]> (stable_states_of h s))
              (windows_of h s) true t) f
  = new_stable h s f.
Proof.
  intros Hf. unfold recorded, dict_get. cbn [prev_states].
  rewrite lookup_insert_ne.
  - by rewrite stable_states_of_lookup.
  - intros <-. unfold FINGERS in Hf.
    repeat (apply elem_of_cons in Hf as [[=]|Hf]). by apply elem_of_nil in Hf.
Qed.

(** One edge-triggered statement on its own, for any pair of values. *)
Lemma command_on_change_alone finger stable new old s :
  stable !! finger = Some new →
  prev_states s !! finger = Some old →
  command_on_change finger stable s
  = (Ok tt, s,
     if decide (new ≠ old ∧ new ≠ None)
     then [StartThread (finger +:+ (if truthy new then "/on" else "/off")) MAX_RETRIES]
     else []).
Proof.
  intros Hnew Hold. unfold command_on_change.
  rewrite (bind_getitem _ _ _ _ _ Hnew). mstep.
  rewrite (bind_getitem _ _ _ _ _ Hold). unfold when, send_command.
  destruct new as [[]|], old as [[]|]; cbn; case_decide; naive_solver.
Qed.

(** C4: for every finger and every pair of recorded and new stable state,
    the edge-triggered statement dispatches the finger's command iff the
    new state differs from the recorded one and is not [None] ("on" for
    [True], "off" for [False]). In a cycle processed while connected the
    new state of a finger is its debounced state [new_stable h s f], what
    the stability filter makes of the finger's window with the cycle's raw
    reading appended, and the old one is the finger's entry in
    [prev_states]; the commands dispatched for the finger are exactly the
    one of that iff, and the new state is recorded, so a following cycle
    whose debounced state for the finger is the same returns it again and
    dispatches no command for the finger. *)
Theorem process_gestures_edge_triggered :
  (∀ (finger : string) (stable : gmap string (option bool)) (s : State)
     (new old : option bool),
     stable !! finger = Some new →
     prev_states s !! finger = Some old →
     command_on_change finger stable s
     = (Ok tt, s,
        if decide (new ≠ old ∧ new ≠ None)
        then [StartThread (finger +:+ (if truthy new then "/on" else "/off")) MAX_RETRIES]
        else []))
  ∧ (∀ (h : NormalizedLandmarkList) (s : State) (f : string),
     esp32_connected s = true → wf_state s → f ∈ FINGERS →
     ∃ (stable : gmap string (option bool)) (s' : State) (ev : list Event),
       process_gestures h s = (Ok (Some stable), s', ev)
       ∧ stable !! f = Some (new_stable h s f)
       ∧ prev_states s !! f = Some (recorded s f)
       ∧ commands_for f ev
         = (if decide (new_stable h s f ≠ recorded s f ∧ new_stable h s f ≠ None)
            then [f +:+ (if truthy (new_stable h s f) then "/on" else "/off")]
            else [])
       ∧ prev_states s' !! f = Some (new_stable h s f)
       ∧ ∀ h2, new_stable h2 s' f = new_stable h s f →
           ∃ (stable2 : gmap string (option bool)) (s2 : State) (ev2 : list Event),
             process_gestures h2 s' = (Ok (Some stable2), s2, ev2)
             ∧ stable2 !! f = Some (new_stable h s f)
             ∧ commands_for f ev2 = []).
Proof.
  split; [intros finger stable s new old; apply command_on_change_alone|].
  intros h s f Hconn Hwf Hf.
  pose proof (process_gestures_connected h s Hconn Hwf) as Hrun. cbn zeta in Hrun.
  eexists _, _, _. split; [exact Hrun|].
  set (s' := mkState _ _ _ _) in Hrun |- *.
  assert (wf_state s') as Hwf' by by apply process_gestures_wf.
  assert (recorded s' f = new_stable h s f) as Hrec
    by by apply process_gestures_recorded.
  split_and!.
  - by apply stable_states_of_lookup.
  - by apply wf_recorded.
  - by apply (process_gestures_commands_for h s f _ _ _ Hconn Hwf Hf Hrun).
  - by rewrite (wf_recorded s' f Hwf' Hf), Hrec.
  - intros h2 Hsame.
    pose proof (process_gestures_connected h2 s' eq_refl Hwf') as Hrun2.
    cbn zeta in Hrun2.
    eexists _, _, _. split; [exact Hrun2|]. split.
    + by rewrite stable_states_of_lookup, Hsame.
    + rewrite (process_gestures_commands_for h2 s' f _ _ _ eq_refl Hwf' Hf Hrun2).
      rewrite Hrec, Hsame. case_decide as Hcond; [|done]. by destruct Hcond.
Qed.

Lemma after_two_cycles_wf : wf_state after_two_cycles.
Proof.
  intros f Hf. unfold FINGERS in Hf.
  repeat (apply elem_of_cons in Hf as [->|Hf]);
    [split; [eexists; split; reflexivity|eexists; reflexivity]..|].
  by apply elem_of_nil in Hf.
Qed.

Lemma process_gestures_edge_triggered_witness :
  command_on_change "index" (<["index" := Some true]> ∅) after_two_cycles
  = (Ok tt, after_two_cycles, [StartThread "index/on" MAX_RETRIES])
  ∧ ∃ (stable : gmap string (option bool)) (s' : State) (ev : list Event),
      process_gestures (pose false true false false false) after_two_cycles
      = (Ok (Some stable), s', ev)
      ∧ stable !! "index"
        = Some (new_stable (pose false true false false false) after_two_cycles "index")
      ∧ prev_states after_two_cycles !! "index" = Some (recorded after_two_cycles "index")
      ∧ commands_for "index" ev
        = (if decide (new_stable (pose false true false false false) after_two_cycles
                        "index" ≠ recorded after_two_cycles "index"
                      ∧ new_stable (pose false true false false false) after_two_cycles
                          "index" ≠ None)
           then ["index"
                 +:+ (if truthy (new_stable (pose false true false false false)
                                   after_two_cycles "index")
                      then "/on" else "/off")]
           else [])
      ∧ prev_states s' !! "index"
        = Some (new_stable (pose false true false false false) after_two_cycles "index")
      ∧ ∀ h2,
          new_stable h2 s' "index"
          = new_stable (pose false true false false false) after_two_cycles "index" →
          ∃ (stable2 : gmap string (option bool)) (s2 : State) (ev2 : list Event),
            process_gestures h2 s' = (Ok (Some stable2), s2, ev2)
            ∧ stable2 !! "index"
              = Some (new_stable (pose false true false false false) after_two_cycles
                        "index")
            ∧ commands_for "index" ev2 = [].
Proof.
  split.
  - apply (proj1 process_gestures_edge_triggered "index" (<["index" := Some true]> ∅)
             after_two_cycles (Some true) None); reflexivity.
  - apply (proj2 process_gestures_edge_triggered (pose false true false false false)
             after_two_cycles "index").
    + reflexivity.
    + exact after_two_cycles_wf.
    + unfold FINGERS. set_solver.
Defined.

(** ** The control loop *)

Lemma full_and_unanimous_decide d :
  full_and_unanimous d ↔ full_and_unanimous_b d = true.
Proof.
  unfold full_and_unanimous, full_and_unanimous_b.
  by rewrite andb_true_iff, Nat.eqb_eq, unanimous_agree.
Qed.

(** A stable state that differs from the recorded one comes from a full
    and unanimous window. *)
Lemma new_stable_changed h s f :
  wf_state s → f ∈ FINGERS →
  new_stable h s f ≠ recorded s f → full_and_unanimous (new_window h s f).
Proof.
  intros Hwf Hf Hdiff. apply full_and_unanimous_decide.
  destruct (full_and_unanimous_b (new_window h s f)) eqn:Hb; [done|].
  destruct Hdiff.
  destruct (stable_of_spec (new_window h s f) (recorded s f)) as [_ Hnot].
  - unfold new_window. rewrite deque_append_maxlen. by apply wf_window.
  - apply Hnot. rewrite full_and_unanimous_decide. congruence.
Qed.

Lemma check_keeps_gesture_state s current_time probe r s' ev :
  check_esp32_connection current_time probe s = (r, s', ev) →
  (∃ b, r = Ok b)
  ∧ prev_states s' = prev_states s
  ∧ gesture_buffer s' = gesture_buffer s
  ∧ dispatched ev = [].
Proof.
  destruct (current_time - last_connection_check s <? CONNECTION_CHECK_INTERVAL)%float
    eqn:Hlt.
  - rewrite check_cached by done. intros [= <- <- <-]. eauto.
  - rewrite check_probed by done.
    destruct probe as [status_code text| | |e]; intros [= <- <- <-];
      (split_and!; [eauto|done|done|]);
      try destruct (status_code =? 200)%Z; try destruct (esp32_connected s); done.
Qed.

(** A step from well-formed globals does not raise, keeps them well formed,
    and dispatches a finger's command only with that finger's window full
    and unanimous. *)
Lemma step_spec i s :
  wf_state s →
  ∃ s' ev,
    step i s = (Ok tt, s', ev)
    ∧ wf_state s'
    ∧ ∀ f endpoint, f ∈ FINGERS → endpoint ∈ finger_commands f →
        endpoint ∈ dispatched ev → full_and_unanimous (window s' f).
Proof.
  intros Hwf. destruct i as [h|current_time probe]; unfold step.
  - destruct (esp32_connected s) eqn:Hconn.
    + pose proof (process_gestures_connected h s Hconn Hwf) as Hrun. cbn zeta in Hrun.
      rewrite (bind_run _ _ _ _ _ _ Hrun). cbn. rewrite (right_id_L [] (++)).
      eexists _, _. split; [done|].
      split; [by apply process_gestures_wf|].
      intros f endpoint Hf Hep Hin.
      assert (endpoint ∈ commands_for f
                (change_command "thumb" (new_stable h s "thumb") (recorded s "thumb")
                 ++ change_command "index" (new_stable h s "index") (recorded s "index")
                 ++ change_command "middle" (new_stable h s "middle") (recorded s "middle")
                 ++ change_command "ring" (new_stable h s "ring") (recorded s "ring")
                 ++ change_command "pinky" (new_stable h s "pinky") (recorded s "pinky")
                 ++ all_off_events (negb (any_values (stable_states_of h s)))
                      (prev_states s))) as Hcmd
        by by apply list_elem_of_filter.
      rewrite (process_gestures_commands_for h s f _ _ _ Hconn Hwf Hf Hrun) in Hcmd.
      case_decide as Hcond; [|by apply elem_of_nil in Hcmd].
      unfold window, dict_get. cbn [gesture_buffer].
      rewrite windows_of_lookup by done.
      apply new_stable_changed; [done..|]. by destruct Hcond.
    + unfold process_gestures. mstep. rewrite Hconn. cbn [negb]. mstep.
      eexists _, _. split; [done|]. split; [done|].
      intros f endpoint _ _ Hin. by apply elem_of_nil in Hin.
  - destruct (check_esp32_connection current_time probe s) as [[r s'] ev] eqn:Hcheck.
    destruct (check_keeps_gesture_state _ _ _ _ _ _ Hcheck)
      as ([b ->] & Hprev & Hbuf & Hdisp).
    rewrite (bind_run _ _ _ _ _ _ Hcheck). cbn. rewrite (right_id_L [] (++)).
    eexists _, _. split; [done|]. split.
    + intros f Hf. rewrite Hprev, Hbuf. by apply Hwf.
    + intros f endpoint _ _ Hin. rewrite Hdisp in Hin. by apply elem_of_nil in Hin.
Qed.

Lemma initial_state_wf : wf_state initial_state.
Proof.
  intros f Hf. unfold FINGERS in Hf.
  repeat (apply elem_of_cons in Hf as [->|Hf]);
    [split; [eexists; split; reflexivity|eexists; reflexivity]..|].
  by apply elem_of_nil in Hf.
Qed.

(** No step of a run from well-formed globals raises, and each keeps the
    invariant of [step_spec]. *)
Lemma run_spec inputs s :
  wf_state s →
  length (run s inputs) = length inputs
  ∧ ∀ p, p ∈ run s inputs →
      wf_state p.1
      ∧ ∀ f endpoint, f ∈ FINGERS → endpoint ∈ finger_commands f →
          endpoint ∈ dispatched p.2 → full_and_unanimous (window p.1 f).
Proof.
  revert s. induction inputs as [|i inputs IH]; intros s Hwf; cbn [run].
  - split; [done|]. intros p Hp. by apply elem_of_nil in Hp.
  - destruct (step_spec i s Hwf) as (s' & ev & -> & Hwf' & Hcmd).
    destruct (IH s' Hwf') as [Hlen Hrest]. split; [cbn; by rewrite Hlen|].
    intros p [->|Hp]%elem_of_cons; [done|by apply Hrest].
Qed.

(** [process_gestures] sees the hand through the classifier only. *)
Lemma process_gestures_ext h1 h2 s :
  detect_finger_states h1 = detect_finger_states h2 →
  process_gestures h1 s = process_gestures h2 s.
Proof. intros Hraw. unfold process_gestures. by rewrite Hraw. Qed.

Lemma run_frames_ext hs1 hs2 s :
  Forall2 (λ h1 h2, detect_finger_states h1 = detect_finger_states h2) hs1 hs2 →
  run s (Frame <$> hs1) = run s (Frame <$> hs2).
Proof.
  intros Hraw. revert s. induction Hraw as [|h1 h2 hs1 hs2 Hh _ IH]; intros s; [done|].
  cbn [fmap list_fmap run step].
  assert (∀ h, (process_gestures h ≫= λ _, mret tt) s
               = match process_gestures h s with
                 | (Ok _, s', ev) => (Ok tt, s', ev ++ [])
                 | (Raised e, s', ev) => (Raised e, s', ev)
                 end) as Hstep
    by (intros h; unfold mbind, M_bind; by destruct (process_gestures h s) as [[[]]]).
  rewrite !Hstep, (process_gestures_ext h1 h2 s Hh).
  destruct (process_gestures h2 s) as [[[r|e] s'] ev]; [|done].
  by rewrite IH.
Qed.

(** C3, as stated, fails: with the classifier reading index up and the
    rest down in three cycles of a connected controller, six commands are
    dispatched, and [all_down] is true in the first two cycles. *)
Lemma index_scenario_dispatches_six_commands :
  let h := pose false true false false false in
  detect_finger_states h = index_only
  ∧ ¬ index_scenario_as_stated h h h
  ∧ commands_per_step (run connected_state [Frame h; Frame h; Frame h])
    = [ ["all/off"]; [];
        ["thumb/off"; "index/on"; "middle/off"; "ring/off"; "pinky/off"] ]
  ∧ all_down_per_step (run connected_state [Frame h; Frame h; Frame h])
    = [Some true; Some true; Some false].
Proof.
  split_and!; [reflexivity| |by vm_compute..].
  intros [Hcmds _]. vm_compute in Hcmds. discriminate.
Qed.

(** C3, amended: from the initial globals with the connection flag true,
    three consecutive observations classified as index up and every other
    finger down dispatch exactly six commands: "all/off" in the first cycle
    (every stable state is still unknown, so [all_down] is true), none in
    the second, and "thumb/off", "index/on", "middle/off", "ring/off",
    "pinky/off" in the third, when all five windows are full and unanimous;
    [all_down] is true in the first two cycles and false in the third. *)
Theorem index_scenario_commands (h1 h2 h3 : NormalizedLandmarkList) :
  detect_finger_states h1 = index_only →
  detect_finger_states h2 = index_only →
  detect_finger_states h3 = index_only →
  commands_per_step (run connected_state [Frame h1; Frame h2; Frame h3])
  = [ ["all/off"]; [];
      ["thumb/off"; "index/on"; "middle/off"; "ring/off"; "pinky/off"] ]
  ∧ all_down_per_step (run connected_state [Frame h1; Frame h2; Frame h3])
    = [Some true; Some true; Some false].
Proof.
  intros H1 H2 H3.
  pose (h := pose false true false false false).
  assert (run connected_state [Frame h1; Frame h2; Frame h3]
          = run connected_state [Frame h; Frame h; Frame h]) as ->.
  { apply (run_frames_ext [h1; h2; h3] [h; h; h]).
    repeat constructor; by rewrite ?H1, ?H2, ?H3. }
  split; by vm_compute.
Qed.

Lemma index_scenario_commands_witness :
  commands_per_step
    (run connected_state [Frame (pose false true false false false);
                          Frame (pose false true false false false);
                          Frame (pose false true false false false)])
  = [ ["all/off"]; [];
      ["thumb/off"; "index/on"; "middle/off"; "ring/off"; "pinky/off"] ].
Proof.
  refine (proj1 (index_scenario_commands (pose false true false false false)
                   (pose false true false false false)
                   (pose false true false false false) _ _ _)); reflexivity.
Defined.

Lemma not_had_unanimous_window finger r :
  forallb (λ p, negb (full_and_unanimous_b (window p.1 finger))) r = true →
  ¬ had_unanimous_window finger r.
Proof.
  rewrite forallb_forall. intros Hall (p & Hp%list_elem_of_In & Hfu).
  apply Hall, negb_true_iff in Hp. apply full_and_unanimous_decide in Hfu. congruence.
Qed.

(** C2, as stated, fails twice over. The first cycle processed while
    connected dispatches "all/off" with one entry in every window; and in a
    run where the thumb flickers, "index/on" is dispatched although the
    thumb never has a unanimous window. *)
Lemma commands_before_all_windows_unanimous :
  ¬ no_command_before_all_unanimous
      [Check 10 (Response 200 "OK"); Frame (pose false true false false false)]
  ∧ (let r := run initial_state
                [Check 10 (Response 200 "OK");
                 Frame (pose true true false false false);
                 Frame (pose false true false false false);
                 Frame (pose true true false false false)] in
     "index/on" ∈ commands_of_run r ∧ ¬ had_unanimous_window "thumb" r).
Proof.
  split; [|split].
  - intros Hclaim. refine (not_had_unanimous_window "thumb" _ _ (Hclaim _ "thumb" _)).
    + by vm_compute.
    + by vm_compute.
    + unfold FINGERS. set_solver.
  - vm_compute. set_solver.
  - apply not_had_unanimous_window. by vm_compute.
Qed.

(** In the first cycle processed while connected nothing is determined:
    every window holds one entry and every stable state is unknown. *)
Lemma first_cycle_unknown h t f :
  f ∈ FINGERS →
  let s0 := mkState initial_prev_states initial_gesture_buffer true t in
  new_stable h s0 f = None ∧ length (items (new_window h s0 f)) = 1.
Proof.
  unfold FINGERS. intros Hf.
  repeat (apply elem_of_cons in Hf as [->|Hf]); [by split..|].
  by apply elem_of_nil in Hf.
Qed.

(** C2, amended: in every run from the initial state, a command of a
    finger is dispatched only in a cycle after which that finger's own
    window is full and unanimous (the other fingers' windows need not be).
    The "all off" command is not gated in this way: the first cycle
    processed while connected dispatches it, and nothing else, while every
    stable state is unknown and no window is full. *)
Theorem finger_command_needs_own_unanimous_window :
  (∀ (inputs : list Input) (f : string) (p : State * list Event) (endpoint : string),
     f ∈ FINGERS →
     p ∈ run initial_state inputs →
     endpoint ∈ finger_commands f →
     endpoint ∈ dispatched p.2 →
     full_and_unanimous (window p.1 f))
  ∧ (∀ (h : NormalizedLandmarkList) (t : float),
     ∃ (stable : gmap string (option bool)) (s' : State),
       process_gestures h (mkState initial_prev_states initial_gesture_buffer true t)
       = (Ok (Some stable), s',
          [StartThread "all/off" MAX_RETRIES;
           Log INFO "All fingers down - all LEDs OFF"])
       ∧ ∀ f, f ∈ FINGERS →
           stable !! f = Some None ∧ ¬ full_and_unanimous (window s' f)).
Proof.
  split.
  - intros inputs f p endpoint Hf Hp Hep Hin.
    destruct (run_spec inputs initial_state initial_state_wf) as [_ Hrun].
    destruct (Hrun p Hp) as [_ Hcmd]. by apply (Hcmd f endpoint).
  - intros h t. set (s0 := mkState initial_prev_states initial_gesture_buffer true t).
    assert (wf_state s0) as Hwf by exact initial_state_wf.
    pose proof (process_gestures_connected h s0 eq_refl Hwf) as Hrun. cbn zeta in Hrun.
    exists (stable_states_of h s0),
      (mkState (<["all_down" := Some (negb (any_values (stable_states_of h s0)))]>
                  (stable_states_of h s0))
         (windows_of h s0) true t).
    split.
    + rewrite Hrun. reflexivity.
    + subst s0. intros f Hf. split.
      * rewrite stable_states_of_lookup by done.
        by rewrite (proj1 (first_cycle_unknown h t f Hf)).
      * unfold window, dict_get. cbn [gesture_buffer].
        rewrite windows_of_lookup by done. intros [Hlen _].
        rewrite (proj2 (first_cycle_unknown h t f Hf)) in Hlen. discriminate.
Qed.

Lemma finger_command_needs_own_unanimous_window_witness :
  full_and_unanimous
    (window (mkState
               (<["all_down" := Some false]>
                  (stable_states_of (pose false true false false false) after_two_cycles))
               (windows_of (pose false true false false false) after_two_cycles)
               true 10) "index").
Proof.
  refine (proj1 finger_command_needs_own_unanimous_window
            [Check 10 (Response 200 "OK");
             Frame (pose false true false false false);
             Frame (pose false true false false false);
             Frame (pose false true false false false)]
            "index"
            (mkState _ _ true 10,
             [StartThread "thumb/off" 2; StartThread "index/on" 2;
              StartThread "middle/off" 2; StartThread "ring/off" 2;
              StartThread "pinky/off" 2])
            "index/on" _ _ _ _).
  - unfold FINGERS. set_solver.
  - apply list_elem_of_In. vm_compute. do 3 right. left. reflexivity.
  - unfold finger_commands. set_solver.
  - vm_compute. set_solver.
Defined.

(** * Further properties *)

(** ** Cycles and runs *)

Lemma step_frame_connected h s :
  esp32_connected s = true → wf_state s →
  step (Frame h) s = (Ok tt, cycle h s, cycle_events h s).
Proof.
  intros Hconn Hwf. unfold step.
  pose proof (process_gestures_connected h s Hconn Hwf) as Hrun. cbn zeta in Hrun.
  rewrite (bind_run _ _ _ _ _ _ Hrun). unfold mret, M_ret.
  rewrite (right_id_L [] (++)). reflexivity.
Qed.

Lemma step_frame_disconnected h s :
  esp32_connected s = false → step (Frame h) s = (Ok tt, s, []).
Proof.
  intros Hoff. unfold step, process_gestures. mstep. rewrite Hoff. cbn [negb]. by mstep.
Qed.

Lemma cycle_wf h s : wf_state s → wf_state (cycle h s).
Proof. intros Hwf. unfold cycle. by apply process_gestures_wf. Qed.

Lemma cycle_window h s f :
  f ∈ FINGERS → window (cycle h s) f = new_window h s f.
Proof.
  intros Hf. unfold window, dict_get, cycle. cbn [gesture_buffer].
  by rewrite windows_of_lookup.
Qed.

Lemma cycle_recorded h s f :
  f ∈ FINGERS → recorded (cycle h s) f = new_stable h s f.
Proof. intros Hf. unfold cycle. by apply process_gestures_recorded. Qed.

Lemma final_state_cons i inputs s s' ev :
  step i s = (Ok tt, s', ev) →
  final_state s (i :: inputs) = final_state s' inputs.
Proof.
  intros Hstep. unfold final_state. cbn [run]. rewrite Hstep, last_cons.
  by destruct (last (run s' inputs)).
Qed.

Lemma final_state_wf inputs s : wf_state s → wf_state (final_state s inputs).
Proof.
  revert s. induction inputs as [|i inputs IH]; intros s Hwf; [done|].
  destruct (step_spec i s Hwf) as (s' & ev & Hstep & Hwf' & _).
  rewrite (final_state_cons _ _ _ _ _ Hstep). by apply IH.
Qed.

(** ** The debounce window as a ring buffer *)

Lemma last_n_app {A} n (l l' : list A) :
  last_n n (last_n n l ++ l') = last_n n (l ++ l').
Proof.
  unfold last_n. rewrite !length_app, length_drop.
  destruct (decide (length l ≤ n)) as [Hle|Hgt].
  - replace (length l - n) with 0 by lia. by rewrite Nat.sub_0_r.
  - replace (length l - (length l - n) + length l' - n) with (length l') by lia.
    replace (length l + length l' - n) with ((length l - n) + length l') by lia.
    rewrite <- (drop_drop (l ++ l')). f_equal. by rewrite drop_app_le by lia.
Qed.

Lemma last_n_all {A} n (l : list A) : length l ≤ n → last_n n l = l.
Proof. intros Hle. unfold last_n. by replace (length l - n) with 0 by lia. Qed.

Lemma last_n_suffix {A} n (l l' : list A) : length l' = n → last_n n (l ++ l') = l'.
Proof.
  intros Hlen. unfold last_n. rewrite length_app, Hlen.
  replace (length l + n - n) with (length l) by lia. apply drop_app_length.
Qed.

Lemma last_n_length {A} n (l : list A) : length (last_n n l) ≤ n.
Proof. unfold last_n. rewrite length_drop. lia. Qed.

Lemma new_window_items h s f :
  wf_state s → f ∈ FINGERS →
  items (new_window h s f) = last_n 3 (items (window s f) ++ [raw_reading h f])
  ∧ maxlen (new_window h s f) = 3.
Proof.
  intros Hwf Hf. destruct (wf_window s f Hwf Hf) as [_ Hcap].
  unfold new_window, deque_append. cbn [items maxlen]. by rewrite Hcap.
Qed.

(** X1: while the controller stays connected, a finger's window holds
    exactly the last three raw readings, oldest first: the entries it had
    followed by the readings of the cycles processed, cut to the last
    three. *)
Theorem window_holds_last_three_readings (hs : list NormalizedLandmarkList)
    (s : State) (f : string) :
  esp32_connected s = true → wf_state s → f ∈ FINGERS →
  length (items (window s f)) ≤ 3 →
  items (window (final_state s (Frame <$> hs)) f)
  = last_n 3 (items (window s f) ++ map (λ h, raw_reading h f) hs)
  ∧ maxlen (window (final_state s (Frame <$> hs)) f) = 3.
Proof.
  intros Hconn Hwf Hf. revert s Hconn Hwf.
  induction hs as [|h hs IH]; intros s Hconn Hwf Hlen.
  - cbn [fmap list_fmap map]. change (final_state s []) with s.
    rewrite (right_id_L [] (++)), last_n_all by done.
    split; [done|]. by apply wf_window.
  - cbn [fmap list_fmap map].
    rewrite (final_state_cons _ _ _ _ _ (step_frame_connected h s Hconn Hwf)).
    destruct (new_window_items h s f Hwf Hf) as [Hitems Hcap].
    destruct (IH (cycle h s)) as [IHitems IHcap].
    + reflexivity.
    + by apply cycle_wf.
    + rewrite cycle_window, Hitems by done. apply last_n_length.
    + split; [|done]. rewrite IHitems, cycle_window, Hitems by done.
      by rewrite last_n_app, <- (assoc_L (++)).
Qed.

Lemma connected_state_wf : wf_state connected_state.
Proof. exact initial_state_wf. Qed.

Lemma window_holds_last_three_readings_witness :
  items (window (final_state connected_state
                   (Frame <$> [pose false true false false false;
                               pose false false false false false;
                               pose false true false false false;
                               pose false true false false false])) "index")
  = [false; true; true].
Proof.
  refine (proj1 (window_holds_last_three_readings
                   [pose false true false false false;
                    pose false false false false false;
                    pose false true false false false;
                    pose false true false false false]
                   connected_state "index" _ _ _ _)).
  - reflexivity.
  - exact connected_state_wf.
  - unfold FINGERS. set_solver.
  - vm_compute. lia.
Defined.

(** X2: three consecutive cycles of a connected controller that read the
    same value for a finger leave that value recorded as the finger's
    stable state, whatever was recorded and whatever the window held
    before. *)
Theorem three_equal_readings_settle (h1 h2 h3 : NormalizedLandmarkList)
    (s : State) (f : string) (b : bool) :
  esp32_connected s = true → wf_state s → f ∈ FINGERS →
  raw_reading h1 f = b → raw_reading h2 f = b → raw_reading h3 f = b →
  recorded (final_state s [Frame h1; Frame h2; Frame h3]) f = Some b
  ∧ items (window (final_state s [Frame h1; Frame h2; Frame h3]) f) = [b; b; b].
Proof.
  intros Hconn Hwf Hf H1 H2 H3.
  pose proof (cycle_wf h1 s Hwf) as Hwf1.
  pose proof (cycle_wf h2 _ Hwf1) as Hwf2.
  rewrite (final_state_cons _ _ _ _ _ (step_frame_connected h1 s Hconn Hwf)).
  rewrite (final_state_cons _ _ _ _ _ (step_frame_connected h2 (cycle h1 s) eq_refl Hwf1)).
  rewrite (final_state_cons _ _ _ _ _ (step_frame_connected h3 (cycle h2 (cycle h1 s)) eq_refl Hwf2)).
  change (final_state ?s' []) with s'.
  destruct (new_window_items h1 s f Hwf Hf) as [Hi1 _].
  destruct (new_window_items h2 _ f Hwf1 Hf) as [Hi2 _].
  destruct (new_window_items h3 _ f Hwf2 Hf) as [Hi3 Hcap3].
  rewrite cycle_window, Hi1, H1 in Hi2 by done.
  rewrite cycle_window, Hi2, H2, H3 in Hi3 by done.
  rewrite last_n_app, <- (assoc_L (++)), last_n_app, <- (assoc_L (++)) in Hi3.
  cbn [app] in Hi3.
  rewrite (last_n_suffix 3 _ [b; b; b]) in Hi3 by done.
  rewrite cycle_window, cycle_recorded by done. split; [|done].
  unfold new_stable, stable_of. rewrite Hi3, Hcap3. by destruct b.
Qed.

Lemma three_equal_readings_settle_witness :
  recorded (final_state connected_state
              [Frame (pose false true false false false);
               Frame (pose true true false false false);
               Frame (pose false true true false false)]) "index"
  = Some true.
Proof.
  refine (proj1 (three_equal_readings_settle
                   (pose false true false false false)
                   (pose true true false false false)
                   (pose false true true false false)
                   connected_state "index" true _ _ _ _ _ _)).
  - reflexivity.
  - exact connected_state_wf.
  - unfold FINGERS. set_solver.
  - reflexivity.
  - reflexivity.
  - reflexivity.
Defined.

(** ** Steps of the control loop, by cases *)

Lemma step_check current_time probe s :
  ∃ s' ev,
    step (Check current_time probe) s = (Ok tt, s', ev)
    ∧ check_esp32_connection current_time probe s = (Ok (esp32_connected s'), s', ev)
    ∧ prev_states s' = prev_states s
    ∧ gesture_buffer s' = gesture_buffer s
    ∧ dispatched ev = [].
Proof.
  destruct (check_esp32_connection current_time probe s) as [[r s'] ev] eqn:Hcheck.
  destruct (check_keeps_gesture_state _ _ _ _ _ _ Hcheck)
    as ([b ->] & Hprev & Hbuf & Hdisp).
  pose proof (check_returns_flag _ _ _ _ _ _ Hcheck) as [= ->].
  exists s', ev. split; [|done].
  unfold step. rewrite (bind_run _ _ _ _ _ _ Hcheck). unfold mret, M_ret.
  by rewrite (right_id_L [] (++)).
Qed.

Lemma new_stable_cases h s f :
  wf_state s → f ∈ FINGERS →
  new_stable h s f = Some (raw_reading h f) ∨ new_stable h s f = recorded s f.
Proof.
  intros Hwf Hf. destruct (wf_window s f Hwf Hf) as [_ Hcap].
  unfold new_stable, stable_of, new_window.
  destruct (_ && _); [left|by right].
  apply deque_append_last. lia.
Qed.

Lemma step_keeps_determined i s f :
  wf_state s → f ∈ FINGERS → recorded s f ≠ None →
  ∃ s' ev, step i s = (Ok tt, s', ev) ∧ wf_state s' ∧ recorded s' f ≠ None.
Proof.
  intros Hwf Hf Hdet. destruct i as [h|current_time probe].
  - destruct (esp32_connected s) eqn:Hconn.
    + eexists _, _. split; [by apply step_frame_connected|].
      split; [by apply cycle_wf|]. rewrite cycle_recorded by done.
      destruct (new_stable_cases h s f Hwf Hf) as [->| ->]; done.
    + eexists _, _. split; [by apply step_frame_disconnected|]. done.
  - destruct (step_check current_time probe s)
      as (s' & ev & Hstep & _ & Hprev & Hbuf & _).
    exists s', ev. split; [done|]. split.
    + intros g Hg. rewrite Hprev, Hbuf. by apply Hwf.
    + unfold recorded. by rewrite Hprev.
Qed.

(** X3: a finger's stable state never goes back to unknown: once a value
    is recorded for it, every later state of the run, whatever the frames
    and connection checks, has a value recorded for it. *)
Theorem stable_state_never_reverts_to_unknown (inputs : list Input) (s : State)
    (f : string) :
  wf_state s → f ∈ FINGERS → recorded s f ≠ None →
  ∀ p, p ∈ run s inputs → recorded p.1 f ≠ None.
Proof.
  intros Hwf Hf. revert s Hwf.
  induction inputs as [|i inputs IH]; intros s Hwf Hdet p Hp; cbn [run] in Hp.
  - by apply elem_of_nil in Hp.
  - destruct (step_keeps_determined i s f Hwf Hf Hdet) as (s' & ev & Hstep & Hwf' & Hdet').
    rewrite Hstep in Hp. apply elem_of_cons in Hp as [->|Hp]; [done|].
    by apply (IH s' Hwf' Hdet').
Qed.

Lemma stable_state_never_reverts_to_unknown_witness :
  Forall (λ p, recorded p.1 "index" ≠ None)
    (run (cycle (pose false true false false false) after_two_cycles)
       [Check 20 Timeout; Frame (pose false false false false false);
        Check 40 (Response 200 "OK"); Frame (pose true false false false false)]).
Proof.
  apply Forall_forall.
  apply (stable_state_never_reverts_to_unknown
           [Check 20 Timeout; Frame (pose false false false false false);
            Check 40 (Response 200 "OK"); Frame (pose true false false false false)]
           (cycle (pose false true false false false) after_two_cycles) "index").
  - apply cycle_wf, after_two_cycles_wf.
  - unfold FINGERS. set_solver.
  - by vm_compute.
Defined.

(** ** The "all down" condition *)

Lemma process_gestures_cycle h s :
  esp32_connected s = true → wf_state s →
  process_gestures h s = (Ok (Some (stable_states_of h s)), cycle h s, cycle_events h s).
Proof. intros Hconn Hwf. exact (process_gestures_connected h s Hconn Hwf). Qed.


Lemma stable_states_of_lookup_other h s key :
  key ∉ FINGERS → stable_states_of h s !! key = None.
Proof.
  unfold FINGERS, stable_states_of. intros Hkey.
  rewrite !lookup_insert_ne by (intros <-; apply Hkey; set_solver). done.
Qed.








(** ** Safety of the control loop *)

Lemma step_windows_bounded i s :
  wf_state s → windows_bounded s →
  ∃ s' ev, step i s = (Ok tt, s', ev) ∧ wf_state s' ∧ windows_bounded s'.
Proof.
  intros Hwf Hb. destruct i as [h|current_time probe].
  - destruct (esp32_connected s) eqn:Hconn.
    + eexists _, _. split; [by apply step_frame_connected|].
      split; [by apply cycle_wf|]. intros f Hf.
      rewrite cycle_window by done.
      destruct (new_window_items h s f Hwf Hf) as [-> _]. apply last_n_length.
    + eexists _, _. split; [by apply step_frame_disconnected|]. done.
  - destruct (step_check current_time probe s)
      as (s' & ev & Hstep & _ & Hprev & Hbuf & _).
    exists s', ev. split; [done|]. split.
    + intros g Hg. rewrite Hprev, Hbuf. by apply Hwf.
    + intros f Hf. unfold window. rewrite Hbuf. by apply Hb.
Qed.

Lemma final_state_windows_bounded inputs s :
  wf_state s → windows_bounded s →
  wf_state (final_state s inputs) ∧ windows_bounded (final_state s inputs).
Proof.
  revert s. induction inputs as [|i inputs IH]; intros s Hwf Hb; [done|].
  destruct (step_windows_bounded i s Hwf Hb) as (s' & ev & Hstep & Hwf' & Hb').
  rewrite (final_state_cons _ _ _ _ _ Hstep). by apply IH.
Qed.

(** X6: the control loop never raises. After any sequence of frames and
    connection checks from the initial globals, each finger still has a
    recorded state and a window of capacity 3 holding at most 3 readings,
    and the next step, whatever it is, returns without [KeyError] or
    [IndexError]. *)
Theorem control_loop_never_raises (inputs : list Input) (i : Input) :
  (∀ f, f ∈ FINGERS →
     is_Some (prev_states (final_state initial_state inputs) !! f)
     ∧ ∃ d, gesture_buffer (final_state initial_state inputs) !! f = Some d
            ∧ maxlen d = 3 ∧ length (items d) ≤ 3)
  ∧ ∃ s' ev, step i (final_state initial_state inputs) = (Ok tt, s', ev).
Proof.
  destruct (final_state_windows_bounded inputs initial_state initial_state_wf)
    as [Hwf Hb].
  { intros f Hf. unfold FINGERS in Hf.
    repeat (apply elem_of_cons in Hf as [->|Hf]); [vm_compute; lia..|].
    by apply elem_of_nil in Hf. }
  split.
  - intros f Hf. destruct (Hwf f Hf) as [_ Hprev]. split; [done|].
    destruct (wf_window _ f Hwf Hf) as [Hd Hcap].
    exists (window (final_state initial_state inputs) f). split_and!; [done..|].
    by apply Hb.
  - destruct (step_spec i _ Hwf) as (s' & ev & Hstep & _). eauto.
Qed.

Lemma commands_of_run_cons p r :
  commands_of_run (p :: r) = dispatched p.2 ++ commands_of_run r.
Proof. done. Qed.

Lemma run_disconnected inputs s :
  esp32_connected s = false →
  (∀ t status_code text, Check t (Response status_code text) ∈ inputs →
                         status_code ≠ 200%Z) →
  commands_of_run (run s inputs) = []
  ∧ prev_states (final_state s inputs) = prev_states s
  ∧ gesture_buffer (final_state s inputs) = gesture_buffer s
  ∧ esp32_connected (final_state s inputs) = false.
Proof.
  revert s. induction inputs as [|i inputs IH]; intros s Hoff Hno200; [done|].
  assert (∃ s' ev, step i s = (Ok tt, s', ev) ∧ dispatched ev = []
                   ∧ prev_states s' = prev_states s
                   ∧ gesture_buffer s' = gesture_buffer s
                   ∧ esp32_connected s' = false)
    as (s' & ev & Hstep & Hev & Hprev & Hbuf & Hoff').
  { destruct i as [h|t probe].
    - eexists _, _. split; [by apply step_frame_disconnected|]. done.
    - destruct (step_check t probe s) as (s' & ev & Hstep & Hcheck & Hprev & Hbuf & Hev).
      exists s', ev. split_and!; [done..|].
      destruct (t - last_connection_check s <? CONNECTION_CHECK_INTERVAL)%float eqn:Hlt.
      + rewrite check_cached in Hcheck by done. by injection Hcheck as _ <- _.
      + rewrite check_probed in Hcheck by done.
        destruct probe as [status_code text| | |e];
          injection Hcheck as Hflag _ _; try done.
        rewrite <- Hflag. apply Z.eqb_neq, (Hno200 t status_code text). by left. }
  cbn [run]. rewrite Hstep, commands_of_run_cons. cbn [snd].
  rewrite Hev, (final_state_cons _ _ _ _ _ Hstep).
  destruct (IH s' Hoff') as (-> & -> & -> & ->).
  { intros t status_code text Hin. apply (Hno200 t status_code text). by right. }
  by rewrite Hprev, Hbuf.
Qed.

(** X7: no command without an answer of status 200. In a run from the
    initial globals in which no connection check is answered with status
    200, no command is dispatched, however many frames are processed, and
    the debounce windows and the previous-state record stay as they were
    initially. *)
Theorem no_command_without_status_200 (inputs : list Input) :
  (∀ t status_code text, Check t (Response status_code text) ∈ inputs →
                         status_code ≠ 200%Z) →
  commands_of_run (run initial_state inputs) = []
  ∧ prev_states (final_state initial_state inputs) = initial_prev_states
  ∧ gesture_buffer (final_state initial_state inputs) = initial_gesture_buffer
  ∧ esp32_connected (final_state initial_state inputs) = false.
Proof. intros Hno200. by apply (run_disconnected inputs initial_state). Qed.

Lemma no_command_without_status_200_witness :
  commands_of_run
    (run initial_state
       [Check 10 (Response 204 ""); Frame (pose false true false false false);
        Check 20 Timeout; Frame (pose false true false false false);
        Frame (pose false true false false false)])
  = [].
Proof.
  refine (proj1 (no_command_without_status_200
                   [Check 10 (Response 204 ""); Frame (pose false true false false false);
                    Check 20 Timeout; Frame (pose false true false false false);
                    Frame (pose false true false false false)] _)).
  intros t status_code text Hin.
  repeat (apply elem_of_cons in Hin as [[=]|Hin]); [by subst|].
  by apply elem_of_nil in Hin.
Defined.

Lemma change_command_shape f new old :
  change_command f new old = []
  ∨ change_command f new old = [StartThread (f +:+ "/on") MAX_RETRIES]
  ∨ change_command f new old = [StartThread (f +:+ "/off") MAX_RETRIES].
Proof.
  unfold change_command. destruct (_ && _); [|by left].
  destruct (truthy new); auto.
Qed.

Lemma all_off_events_shape all_down prev :
  all_off_events all_down prev = []
  ∨ all_off_events all_down prev
    = [StartThread "all/off" MAX_RETRIES; Log INFO "All fingers down - all LEDs OFF"].
Proof. unfold all_off_events. destruct (_ && _); auto. Qed.

Lemma cycle_events_ok h s : cycle_trace_ok (cycle_events h s).
Proof.
  unfold cycle_events.
  destruct (change_command_shape "thumb" (new_stable h s "thumb") (recorded s "thumb"))
    as [-> | [-> | ->]];
  destruct (change_command_shape "index" (new_stable h s "index") (recorded s "index"))
    as [-> | [-> | ->]];
  destruct (change_command_shape "middle" (new_stable h s "middle") (recorded s "middle"))
    as [-> | [-> | ->]];
  destruct (change_command_shape "ring" (new_stable h s "ring") (recorded s "ring"))
    as [-> | [-> | ->]];
  destruct (change_command_shape "pinky" (new_stable h s "pinky") (recorded s "pinky"))
    as [-> | [-> | ->]];
  destruct (all_off_events_shape (negb (any_values (stable_states_of h s)))
              (prev_states s)) as [-> | ->];
  unfold cycle_trace_ok; apply (bool_decide_unpack _); by vm_compute.
Qed.

Lemma process_gestures_cases h s :
  wf_state s →
  process_gestures h s
  = if esp32_connected s
    then (Ok (Some (stable_states_of h s)), cycle h s, cycle_events h s)
    else (Ok None, s, []).
Proof.
  intros Hwf. destruct (esp32_connected s) eqn:Hconn.
  - by apply process_gestures_cycle.
  - unfold process_gestures. mstep. by rewrite Hconn.
Qed.

Lemma process_gestures_trace_ok h s r s' ev :
  wf_state s → process_gestures h s = (r, s', ev) → cycle_trace_ok ev.
Proof.
  intros Hwf. rewrite process_gestures_cases by done.
  destruct (esp32_connected s); intros [= _ _ <-]; [apply cycle_events_ok|].
  unfold cycle_trace_ok. apply (bool_decide_unpack _). by vm_compute.
Qed.

(** X8: a call of [process_gestures] only ever dispatches endpoints of the
    controller's interface (a finger's "on" or "off", or "all/off"), each at
    most once, hence at most six commands, and every delivery thread is
    started with the default [MAX_RETRIES]. *)
Theorem cycle_dispatches_known_endpoints (h : NormalizedLandmarkList) (s : State)
    (r : Result (option (gmap string (option bool)))) (s' : State) (ev : list Event) :
  wf_state s →
  process_gestures h s = (r, s', ev) →
  (∀ endpoint, endpoint ∈ dispatched ev → endpoint ∈ ENDPOINTS)
  ∧ NoDup (dispatched ev)
  ∧ length (dispatched ev) ≤ 6
  ∧ ∀ endpoint retries, StartThread endpoint retries ∈ ev → retries = MAX_RETRIES.
Proof.
  intros Hwf Hrun.
  destruct (process_gestures_trace_ok h s r s' ev Hwf Hrun)
    as (Hknown & Hnodup & Hlen & Hretries & _).
  split_and!; [|done|done|].
  - intros endpoint Hin. by apply (proj1 (Forall_forall _ _) Hknown).
  - intros endpoint retries Hin.
    apply forallb_forall with (x := StartThread endpoint retries) in Hretries;
      [|by apply list_elem_of_In].
    cbn in Hretries. by apply bool_decide_eq_true in Hretries.
Qed.

Lemma cycle_dispatches_known_endpoints_witness :
  (∀ endpoint,
     endpoint ∈ dispatched (cycle_events (pose false true false false false)
                              after_two_cycles) →
     endpoint ∈ ENDPOINTS)
  ∧ NoDup (dispatched (cycle_events (pose false true false false false) after_two_cycles))
  ∧ length (dispatched (cycle_events (pose false true false false false)
                          after_two_cycles)) ≤ 6
  ∧ ∀ endpoint retries,
      StartThread endpoint retries
      ∈ cycle_events (pose false true false false false) after_two_cycles →
      retries = MAX_RETRIES.
Proof.
  apply (cycle_dispatches_known_endpoints (pose false true false false false)
           after_two_cycles
           (Ok (Some (stable_states_of (pose false true false false false)
                        after_two_cycles)))
           (cycle (pose false true false false false) after_two_cycles)).
  - exact after_two_cycles_wf.
  - vm_compute. reflexivity.
Defined.

(** X9: [process_gestures] stays off the network. On its own thread it
    issues no request and never sleeps (delivery is left to the threads it
    starts), and it leaves the connection flag and the time of the last
    probe as they were. *)
Theorem process_gestures_never_blocks (h : NormalizedLandmarkList) (s : State)
    (r : Result (option (gmap string (option bool)))) (s' : State) (ev : list Event) :
  wf_state s →
  process_gestures h s = (r, s', ev) →
  filter is_blocking ev = []
  ∧ requests_made ev = 0
  ∧ esp32_connected s' = esp32_connected s
  ∧ last_connection_check s' = last_connection_check s.
Proof.
  intros Hwf Hrun.
  destruct (process_gestures_trace_ok h s r s' ev Hwf Hrun) as (_ & _ & _ & _ & Hblock).
  split; [done|]. split.
  - unfold requests_made.
    enough (filter is_request ev = []) as -> by done.
    clear Hrun. induction ev as [|e ev IH]; [done|].
    rewrite filter_cons in Hblock. rewrite filter_cons.
    destruct e; cbn in *; try discriminate; by apply IH.
  - rewrite process_gestures_cases in Hrun by done.
    destruct (esp32_connected s) eqn:Hconn; by injection Hrun as _ <- _.
Qed.

Lemma process_gestures_never_blocks_witness :
  filter is_blocking (cycle_events (pose false true false false false) after_two_cycles)
  = [].
Proof.
  refine (proj1 (process_gestures_never_blocks (pose false true false false false)
                   after_two_cycles
                   (Ok (Some (stable_states_of (pose false true false false false)
                                after_two_cycles)))
                   (cycle (pose false true false false false) after_two_cycles)
                   _ _ _)).
  - exact after_two_cycles_wf.
  - vm_compute. reflexivity.
Defined.

(** X10: the health monitor keeps to its own state. A call of
    [check_esp32_connection] returns a boolean whatever the transport does,
    issues at most one request, dispatches no command, and leaves the
    debounce windows and the previous-state record untouched. *)
Theorem check_keeps_to_connection_state (current_time : float) (probe : Outcome)
    (s : State) :
  ∃ (flag : bool) (s' : State) (ev : list Event),
    check_esp32_connection current_time probe s = (Ok flag, s', ev)
    ∧ esp32_connected s' = flag
    ∧ prev_states s' = prev_states s
    ∧ gesture_buffer s' = gesture_buffer s
    ∧ dispatched ev = []
    ∧ requests_made ev ≤ 1.
Proof.
  destruct (check_esp32_connection current_time probe s) as [[r s'] ev] eqn:Hcheck.
  destruct (check_keeps_gesture_state _ _ _ _ _ _ Hcheck)
    as ([b ->] & Hprev & Hbuf & Hdisp).
  pose proof (check_returns_flag _ _ _ _ _ _ Hcheck) as [= ->].
  exists (esp32_connected s'), s', ev. split_and!; try done.
  destruct (current_time - last_connection_check s <? CONNECTION_CHECK_INTERVAL)%float
    eqn:Hlt.
  - rewrite check_cached in Hcheck by done. injection Hcheck as _ _ <-. cbn. lia.
  - rewrite check_probed in Hcheck by done.
    destruct probe as [status_code text| | |e]; injection Hcheck as _ _ <-;
      try destruct (status_code =? 200)%Z; try destruct (esp32_connected s);
      vm_compute; lia.
Qed.

(** ** The delivery loop, further *)

Lemma error_logs_app tr1 tr2 :
  error_logs (tr1 ++ tr2) = error_logs tr1 + error_logs tr2.
Proof. unfold error_logs. by rewrite filter_app, length_app. Qed.

Lemma error_logs_retried_attempt transport endpoint retries j :
  retried (transport j) = true →
  error_logs (send_attempt transport endpoint retries j).2 = 0.
Proof.
  unfold send_attempt, retried. destruct (transport j) as [status_code text| | |e];
    try done.
  by destruct (status_code =? 200)%Z.
Qed.

Lemma error_logs_retried_iterations transport endpoint retries m :
  (∀ j, j < m → retried (transport j) = true) →
  error_logs (iterations (send_attempt transport endpoint retries) 0 m) = 0.
Proof.
  induction m as [|m IH]; intros Hretried; [done|].
  rewrite iterations_snoc, error_logs_app, IH, error_logs_retried_attempt.
  - done.
  - apply Hretried. lia.
  - intros j Hj. apply Hretried. lia.
Qed.

(** The trace of a delivery that stops at attempt [k]. *)
Lemma send_stops_at transport endpoint retries k :
  k < retries →
  (∀ j, j < k → retried (transport j) = true) →
  retried (transport k) = false →
  send transport endpoint retries
  = iterations (send_attempt transport endpoint retries) 0 k
    ++ (send_attempt transport endpoint retries k).2.
Proof.
  intros Hk Hreached Hstop.
  by rewrite (send_until_stop _ _ _ k), iterations_snoc.
Qed.

(** X11: a delivery stops at the first answer with status 200. If every
    earlier attempt was retried and attempt [k] is answered with status
    200, exactly [k + 1] requests are made, the trace ends on the debug log
    of the answer (no pause follows), and nothing is logged at error
    level. *)
Theorem send_stops_on_success (transport : nat → Outcome) (endpoint : string)
    (retries k : nat) (text : string) :
  k < retries →
  (∀ j, j < k → retried (transport j) = true) →
  transport k = Response 200 text →
  requests_made (send transport endpoint retries) = S k
  ∧ last (send transport endpoint retries)
    = Some (Log DEBUG ("Command sent: " +:+ endpoint +:+ " - " +:+ text))
  ∧ error_logs (send transport endpoint retries) = 0.
Proof.
  intros Hk Hreached Hok.
  assert (retried (transport k) = false) as Hstop by by rewrite Hok.
  assert (send_attempt transport endpoint retries k
          = (Return, [Request (BASE_URL +:+ "/led/" +:+ endpoint) REQUEST_TIMEOUT;
                      Log DEBUG ("Command sent: " +:+ endpoint +:+ " - " +:+ text)]))
    as Hattempt by (unfold send_attempt; by rewrite Hok).
  split; [|split].
  - rewrite (send_until_stop _ _ _ k) by done. apply requests_made_iterations.
  - rewrite (send_stops_at _ _ _ k), Hattempt by done. cbn [snd].
    by rewrite last_app_cons, last_cons_cons.
  - rewrite (send_stops_at _ _ _ k), error_logs_app, error_logs_retried_iterations,
      Hattempt by done.
    done.
Qed.

Lemma send_stops_on_success_witness :
  requests_made
    (send (λ n, match n with 0 => Timeout | _ => Response 200 "LED ON" end)
       "thumb/on" 5) = 2.
Proof.
  refine (proj1 (send_stops_on_success
                   (λ n, match n with 0 => Timeout | _ => Response 200 "LED ON" end)
                   "thumb/on" 5 1 "LED ON" _ _ _)).
  - lia.
  - intros j Hj. assert (j = 0) as -> by lia. reflexivity.
  - reflexivity.
Defined.

(** X12: an exception caught by the [except ConnectionError] clause is
    never retried. That clause comes second, after [except Timeout], so it
    catches a connection error that is not a timeout; an exception that is
    both, as requests' [ConnectTimeout], is caught by the first clause and
    is the outcome [Timeout] here, which is retried. If every earlier
    attempt was retried and attempt [k] raises a connection error that is
    not a timeout, that attempt is the last, however many remain, and the
    trace ends on the one error-level log
    "Connection error for <endpoint>". *)
Theorem send_aborts_on_connection_error (transport : nat → Outcome)
    (endpoint : string) (retries k : nat) :
  k < retries →
  (∀ j, j < k → retried (transport j) = true) →
  transport k = ConnectionError →
  requests_made (send transport endpoint retries) = S k
  ∧ last (send transport endpoint retries)
    = Some (Log ERROR ("Connection error for " +:+ endpoint))
  ∧ error_logs (send transport endpoint retries) = 1.
Proof.
  intros Hk Hreached Herr.
  assert (retried (transport k) = false) as Hstop by by rewrite Herr.
  assert (send_attempt transport endpoint retries k
          = (Break, [Request (BASE_URL +:+ "/led/" +:+ endpoint) REQUEST_TIMEOUT;
                     Log ERROR ("Connection error for " +:+ endpoint)]))
    as Hattempt by (unfold send_attempt; by rewrite Herr).
  split; [|split].
  - rewrite (send_until_stop _ _ _ k) by done. apply requests_made_iterations.
  - rewrite (send_stops_at _ _ _ k), Hattempt by done. cbn [snd].
    by rewrite last_app_cons, last_cons_cons.
  - rewrite (send_stops_at _ _ _ k), error_logs_app, error_logs_retried_iterations,
      Hattempt by done.
    done.
Qed.

Lemma send_aborts_on_connection_error_witness :
  requests_made (send (λ _, ConnectionError) "all/off" MAX_RETRIES) = 1.
Proof.
  refine (proj1 (send_aborts_on_connection_error (λ _, ConnectionError)
                   "all/off" MAX_RETRIES 0 _ _ _)).
  - unfold MAX_RETRIES. lia.
  - intros j Hj. lia.
  - reflexivity.
Defined.

Lemma send_attempt_requests transport endpoint retries k url timeout :
  Request url timeout ∈ (send_attempt transport endpoint retries k).2 →
  url = BASE_URL +:+ "/led/" +:+ endpoint ∧ timeout = REQUEST_TIMEOUT.
Proof.
  unfold send_attempt. destruct (transport k) as [status_code text| | |e];
    try destruct (status_code =? 200)%Z; cbn [snd];
    rewrite ?elem_of_cons, elem_of_nil; naive_solver.
Qed.

(** X13: whatever the transport does, a delivery started with [retries]
    makes at most [retries] requests (none at all for 0), and every request
    goes to [BASE_URL/led/<endpoint>] with timeout [REQUEST_TIMEOUT]. *)
Theorem send_bounded_and_targeted (transport : nat → Outcome) (endpoint : string)
    (retries : nat) :
  requests_made (send transport endpoint retries) ≤ retries
  ∧ ∀ url timeout, Request url timeout ∈ send transport endpoint retries →
      url = BASE_URL +:+ "/led/" +:+ endpoint ∧ timeout = REQUEST_TIMEOUT.
Proof.
  split; [apply send_requests_bound|].
  unfold send. generalize (seq 0 retries) as iters.
  induction iters as [|i iters IH]; intros url timeout Hin; cbn [for_loop] in Hin.
  - by apply elem_of_nil in Hin.
  - pose proof (send_attempt_requests transport endpoint retries i url timeout) as Hone.
    destruct (send_attempt transport endpoint retries i) as [fl ev].
    destruct fl; [apply elem_of_app in Hin as [Hin|Hin]|..]; auto.
Qed.

(** ** The health monitor and the controller together *)

(** X14: any number of calls within the interval are free. If every call
    of a sequence of connection checks comes less than
    [CONNECTION_CHECK_INTERVAL] after the last probe, none of them issues a
    request or logs anything, and the globals are unchanged at the end. *)
Theorem checks_within_interval_are_free (s : State) (calls : list (float * Outcome)) :
  (∀ c, c ∈ calls →
        (c.1 - last_connection_check s <? CONNECTION_CHECK_INTERVAL)%float = true) →
  final_state s ((λ c, Check c.1 c.2) <$> calls) = s
  ∧ ∀ p, p ∈ run s ((λ c, Check c.1 c.2) <$> calls) → p = (s, []).
Proof.
  induction calls as [|[t probe] calls IH]; intros Hwithin.
  - split; [done|]. intros p Hp. by apply elem_of_nil in Hp.
  - assert (step (Check t probe) s = (Ok tt, s, [])) as Hstep.
    { unfold step. rewrite (bind_run _ _ _ _ _ _ (check_cached s t probe
        (Hwithin (t, probe) ltac:(by left)))). done. }
    destruct IH as [IHfinal IHrun].
    { intros c Hc. apply Hwithin. by right. }
    cbn [fmap list_fmap fst snd].
    rewrite (final_state_cons _ _ _ _ _ Hstep). split; [done|].
    cbn [run]. rewrite Hstep. intros p [->|Hp]%elem_of_cons; [done|by apply IHrun].
Qed.

Lemma checks_within_interval_are_free_witness :
  final_state (mkState initial_prev_states initial_gesture_buffer true 10)
    ((λ c, Check c.1 c.2) <$> [(11%float, Timeout); (12%float, Response 500 "");
                                (14.5%float, ConnectionError)])
  = mkState initial_prev_states initial_gesture_buffer true 10.
Proof.
  refine (proj1 (checks_within_interval_are_free
                   (mkState initial_prev_states initial_gesture_buffer true 10)
                   [(11%float, Timeout); (12%float, Response 500 "");
                    (14.5%float, ConnectionError)] _)).
  intros c Hc. repeat (apply elem_of_cons in Hc as [->|Hc]); [reflexivity..|].
  by apply elem_of_nil in Hc.
Defined.

(** X15: a failed probe silences the controller. After a probe that is
    answered by anything but status 200 (another 2xx included) or that
    raises, the call returns [False], and the frames processed from then
    on dispatch no command and leave the debounce windows and the
    previous-state record as they were before the probe. *)
Theorem failed_probe_stops_commands (s : State) (current_time : float)
    (probe : Outcome) (hs : list NormalizedLandmarkList) :
  (current_time - last_connection_check s <? CONNECTION_CHECK_INTERVAL)%float = false →
  (∀ text, probe ≠ Response 200 text) →
  ∃ (s1 : State) (ev : list Event),
    check_esp32_connection current_time probe s = (Ok false, s1, ev)
    ∧ requests_made ev = 1
    ∧ commands_of_run (run s1 (Frame <$> hs)) = []
    ∧ gesture_buffer (final_state s1 (Frame <$> hs)) = gesture_buffer s
    ∧ prev_states (final_state s1 (Frame <$> hs)) = prev_states s.
Proof.
  intros Hdue Hfail.
  assert (∃ ev, check_esp32_connection current_time probe s
                = (Ok false,
                   mkState (prev_states s) (gesture_buffer s) false current_time, ev)
                ∧ requests_made ev = 1) as (ev & Hcheck & Hone).
  { rewrite check_probed by done. destruct probe as [status_code text| | |e].
    - destruct (Z.eqb_spec status_code 200) as [->|Hne]; [by destruct (Hfail text)|].
      eexists. split; [reflexivity|done].
    - eexists. split; [reflexivity|]. by destruct (esp32_connected s).
    - eexists. split; [reflexivity|]. by destruct (esp32_connected s).
    - eexists. split; [reflexivity|]. by destruct (esp32_connected s). }
  eexists _, ev. split; [exact Hcheck|]. split; [done|].
  destruct (run_disconnected (Frame <$> hs)
              (mkState (prev_states s) (gesture_buffer s) false current_time))
    as (Hcmds & Hprev & Hbuf & _); [done| |done].
  intros t status_code text Hin. apply list_elem_of_fmap in Hin as (h & [=] & _).
Qed.

Lemma failed_probe_stops_commands_witness :
  ∃ (s1 : State) (ev : list Event),
    check_esp32_connection 10 (Response 204 "") after_two_cycles = (Ok false, s1, ev)
    ∧ requests_made ev = 1
    ∧ commands_of_run (run s1 (Frame <$> [pose false true false false false])) = []
    ∧ gesture_buffer (final_state s1 (Frame <$> [pose false true false false false]))
      = gesture_buffer after_two_cycles
    ∧ prev_states (final_state s1 (Frame <$> [pose false true false false false]))
      = prev_states after_two_cycles.
Proof.
  apply (failed_probe_stops_commands after_two_cycles 10 (Response 204 "")
           [pose false true false false false]).
  - reflexivity.
  - intros text. discriminate.
Defined.

(** ** Missing keys *)

(** X16: a finger without a window is a [KeyError] with no effect. Called
    for a name that has no entry in [gesture_buffer], [get_stable_gesture]
    raises [KeyError] for that name, with no window appended to and no
    event; and [process_gestures], connected, on globals that lack the
    window of "thumb" raises the same before dispatching anything or
    touching the globals. *)
Theorem missing_window_raises_key_error (finger : string) (current_state : bool)
    (h : NormalizedLandmarkList) (s : State) :
  (gesture_buffer s !! finger = None →
   get_stable_gesture finger current_state s = (Raised (KeyError finger), s, []))
  ∧ (esp32_connected s = true → gesture_buffer s !! "thumb" = None →
     process_gestures h s = (Raised (KeyError "thumb"), s, [])).
Proof.
  assert (∀ f c, gesture_buffer s !! f = None →
                 get_stable_gesture f c s = (Raised (KeyError f), s, [])) as Hraise.
  { intros f c Hnone. unfold get_stable_gesture. mstep.
    unfold getitem. rewrite Hnone. reflexivity. }
  split; [apply Hraise|].
  intros Hconn Hnone. unfold process_gestures. mstep. rewrite Hconn.
  cbn [negb for_each]. rewrite !bind_assoc.
  rewrite (bind_getitem _ _ _ _ _ (raw_reading_lookup h "thumb"
             ltac:(unfold FINGERS; set_solver))).
  rewrite bind_assoc. unfold mbind at 1, M_bind at 1.
  by rewrite (Hraise "thumb" _ Hnone).
Qed.

Lemma missing_window_raises_key_error_witness :
  get_stable_gesture "wrist" true initial_state
  = (Raised (KeyError "wrist"), initial_state, []).
Proof.
  refine (proj1 (missing_window_raises_key_error "wrist" true
                   (pose false false false false false) initial_state) _).
  reflexivity.
Defined.

(** ** The classifier on NaN *)

Lemma is_nan_Prim2SF x : is_nan x = true → Prim2SF x = S754_nan.
Proof.
  unfold is_nan. rewrite FloatAxioms.eqb_spec. unfold SFeqb.
  destruct (Prim2SF x) as [sg|sg| |sg m e]; cbn; try done.
  - by destruct sg.
  - rewrite Z.compare_refl, Pos.compare_cont_refl. by destruct sg.
Qed.

Lemma ltb_nan_l x y : is_nan x = true → (x <? y)%float = false.
Proof.
  intros Hnan%is_nan_Prim2SF. by rewrite FloatAxioms.ltb_spec, Hnan.
Qed.

Lemma ltb_nan_r x y : is_nan y = true → (x <? y)%float = false.
Proof.
  intros Hnan%is_nan_Prim2SF. rewrite FloatAxioms.ltb_spec, Hnan.
  unfold SFltb. by destruct (Prim2SF x).
Qed.

Lemma sub_nan_l x y : is_nan x = true → is_nan (x - y) = true.
Proof.
  intros Hnan%is_nan_Prim2SF. unfold is_nan.
  rewrite FloatAxioms.eqb_spec, FloatAxioms.sub_spec, Hnan. reflexivity.
Qed.

(** X17: a NaN coordinate never reads as "up". The thumb is down when the
    x of its tip or of its IP joint is NaN, and each other finger is down
    when the y of its tip or of its PIP joint is NaN. *)
Theorem nan_coordinate_reads_down (h : NormalizedLandmarkList) :
  let px := λ k, Landmark.x (landmark h k) in
  let py := λ k, Landmark.y (landmark h k) in
  (is_nan (px THUMB_TIP) = true ∨ is_nan (px THUMB_IP) = true →
   detect_finger_states h !! "thumb" = Some false)
  ∧ (is_nan (py INDEX_FINGER_TIP) = true ∨ is_nan (py INDEX_FINGER_PIP) = true →
     detect_finger_states h !! "index" = Some false)
  ∧ (is_nan (py MIDDLE_FINGER_TIP) = true ∨ is_nan (py MIDDLE_FINGER_PIP) = true →
     detect_finger_states h !! "middle" = Some false)
  ∧ (is_nan (py RING_FINGER_TIP) = true ∨ is_nan (py RING_FINGER_PIP) = true →
     detect_finger_states h !! "ring" = Some false)
  ∧ (is_nan (py PINKY_TIP) = true ∨ is_nan (py PINKY_PIP) = true →
     detect_finger_states h !! "pinky" = Some false).
Proof.
  intros px py. unfold detect_finger_states.
  assert (∀ tip pip, is_nan tip = true ∨ is_nan pip = true →
                     (tip <? pip - 0.02)%float = false) as Hvertical.
  { intros tip pip [Htip|Hpip]; [by apply ltb_nan_l|].
    by apply ltb_nan_r, sub_nan_l. }
  subst px py. cbv beta.
  split_and!; intros Hnan; simplify_map_eq; f_equal; try by apply Hvertical.
  destruct Hnan as [Htip|Hip].
  - rewrite (ltb_nan_l _ (Landmark.x (landmark h THUMB_MCP)) Htip).
    by apply ltb_nan_r.
  - destruct (_ <? _)%float; [by apply ltb_nan_r|by apply ltb_nan_l].
Qed.

Lemma nan_coordinate_reads_down_witness :
  detect_finger_states nan_hand !! "thumb" = Some false
  ∧ detect_finger_states nan_hand !! "pinky" = Some false.
Proof.
  destruct (nan_coordinate_reads_down nan_hand) as (Hthumb & _ & _ & _ & Hpinky).
  split; [apply Hthumb|apply Hpinky]; left; reflexivity.
Defined.

(** ** Information overlay *)




Lemma draw_fingers_truthiness items1 items2 y_offset :
  (λ p, (p.1, truthy p.2)) <$> items1 = (λ p, (p.1, truthy p.2)) <$> items2 →
  draw_fingers items1 y_offset = draw_fingers items2 y_offset.
Proof.
  revert items2 y_offset.
  induction items1 as [|[f1 v1] items1 IH]; intros [|[f2 v2] items2] y_offset Heq;
    try done.
  cbn in Heq. injection Heq as -> Htruthy Heq. cbn [draw_fingers].
  unfold finger_line. rewrite Htruthy. case_bool_decide; [f_equal|]; by apply IH.
Qed.

(** X19: the overlay cannot tell an unknown stable state from a stable
    "down". Two dictionaries with the same keys in the same order and
    states of the same truthiness ([None] and [False] alike) are drawn
    the same: an undetermined finger is shown as "DOWN", in grey. *)
Theorem draw_info_shows_unknown_as_down (format_1f : float → string) (height : Z)
    (fps : float) (s : State) (items1 items2 : list (string * option bool)) :
  (λ p, (p.1, truthy p.2)) <$> items1 = (λ p, (p.1, truthy p.2)) <$> items2 →
  draw_info format_1f height (Some items1) fps s
  = draw_info format_1f height (Some items2) fps s.
Proof.
  intros Heq. unfold draw_info. do 2 f_equal.
  destruct items1 as [|p1 items1], items2 as [|p2 items2]; try done.
  by apply draw_fingers_truthiness.
Qed.

Lemma draw_info_shows_unknown_as_down_witness :
  draw_info (λ _, "30.0") 480 (Some [("thumb", None); ("index", Some true)])
    30 initial_state
  = draw_info (λ _, "30.0") 480 (Some [("thumb", Some false); ("index", Some true)])
      30 initial_state.
Proof.
  apply (draw_info_shows_unknown_as_down (λ _, "30.0") 480 30 initial_state
           [("thumb", None); ("index", Some true)]
           [("thumb", Some false); ("index", Some true)]).
  reflexivity.
Defined.

(** ** The returned dictionary and its order *)

Lemma map_result_bind {A B C} (f : B → C) (m : M A) (k : A → M B) s :
  map_result f (m ≫= k) s = (m ≫= λ a, map_result f (k a)) s.
Proof.
  unfold map_result, mbind, M_bind. destruct (m s) as [[[a|e] s1] ev1]; [|done].
  by destruct (k a s1) as [[[b|e] s2] ev2].
Qed.

Lemma bind_map_result {A B C} (f : A → B) (m : M A) (k : B → M C) s :
  (map_result f m ≫= k) s = (m ≫= λ a, k (f a)) s.
Proof.
  unfold map_result, mbind, M_bind. by destruct (m s) as [[[a|e] s1] ev1].
Qed.

Lemma bind_ext {A B} (m : M A) (k1 k2 : A → M B) s :
  (∀ a s', k1 a s' = k2 a s') → (m ≫= k1) s = (m ≫= k2) s.
Proof.
  intros Hk. unfold mbind, M_bind. destruct (m s) as [[[a|e] s1] ev1]; [|done].
  by rewrite Hk.
Qed.

Lemma bind_cong {A B} (m1 m2 : M A) (k : A → M B) s :
  m1 s = m2 s → (m1 ≫= k) s = (m2 ≫= k) s.
Proof. intros Hm. unfold mbind, M_bind. by rewrite Hm. Qed.

(** The loop that fills [stable_states]: the keys come in the order of the
    loop, the map is that of the loop without the order. *)
Lemma for_each_ordered (current_states : gmap string bool) xs m keys s :
  for_each xs (PyDict m keys)
    (λ finger stable_states,
       current_state ← getitem current_states finger;
       stable ← get_stable_gesture finger current_state;
       mret (dict_setitem finger stable stable_states)) s
  = map_result (λ m', PyDict m' (foldl add_key keys xs))
      (for_each xs m
         (λ finger stable_states,
            current_state ← getitem current_states finger;
            stable ← get_stable_gesture finger current_state;
            mret (<[finger := stable]> stable_states))) s.
Proof.
  revert m keys s. induction xs as [|x xs IH]; intros m keys s; [done|].
  cbn [for_each foldl]. rewrite map_result_bind, !bind_assoc.
  apply bind_ext. intros current_state s1. rewrite !bind_assoc.
  apply bind_ext. intros stable s2. rewrite !bind_ret.
  unfold dict_setitem. cbn [dict_map dict_keys]. apply IH.
Qed.

(** The two embeddings of [process_gestures] agree: same globals, same
    events, same exception if any, and the dictionary returned with its
    order is the map returned without it, its keys being the five fingers
    in the order of the loop. *)
Lemma process_gestures_ordered_map h s :
  process_gestures_ordered h s
  = map_result (fmap (λ m, PyDict m ["thumb"; "index"; "middle"; "ring"; "pinky"]))
      (process_gestures h) s.
Proof.
  unfold process_gestures_ordered, process_gestures.
  rewrite map_result_bind. apply bind_ext. intros connected s1.
  destruct connected; cbn [negb]; [|done]. cbv zeta.
  rewrite map_result_bind. unfold dict_empty.
  rewrite (bind_cong _ _ _ _ (for_each_ordered _ _ _ _ _)), bind_map_result.
  apply bind_ext. intros m s2. cbn [dict_map].
  do 5 (rewrite map_result_bind; apply bind_ext; intros ? ?).
  rewrite map_result_bind; apply bind_ext; intros prev s3.
  do 2 (rewrite map_result_bind; apply bind_ext; intros ? ?).
  reflexivity.
Qed.

Lemma process_gestures_ordered_cycle h s :
  esp32_connected s = true → wf_state s →
  process_gestures_ordered h s
  = (Ok (Some (PyDict (stable_states_of h s) FINGERS)), cycle h s, cycle_events h s).
Proof.
  intros Hconn Hwf. rewrite process_gestures_ordered_map. unfold map_result.
  by rewrite process_gestures_cycle.
Qed.

(** X20: what the operator sees after a connected cycle. The dictionary
    that [process_gestures] returns has the five fingers and nothing else
    as its keys, in the order in which its loop sets them; it has no
    "all_down", which is set in the copy kept as [prev_states] only. Its
    items are the fingers' new stable states. Drawn from it, the overlay
    lists Thumb, Index, Middle, Ring, Pinky at y = 100, 125, 150, 175 and
    200, each "UP" iff its new stable state is [True]. *)
Theorem draw_info_after_cycle (format_1f : float → string) (height : Z) (fps : float)
    (h : NormalizedLandmarkList) (s : State) :
  esp32_connected s = true → wf_state s →
  ∃ (stable_states : pydict (option bool)) (s' : State) (ev : list Event),
    process_gestures_ordered h s = (Ok (Some stable_states), s', ev)
    ∧ process_gestures h s = (Ok (Some (dict_map stable_states)), s', ev)
    ∧ dict_keys stable_states = ["thumb"; "index"; "middle"; "ring"; "pinky"]
    ∧ (∀ key, is_Some (dict_map stable_states !! key) ↔ key ∈ dict_keys stable_states)
    ∧ dict_map stable_states !! "all_down" = None
    ∧ dict_items stable_states
      = [("thumb", new_stable h s "thumb"); ("index", new_stable h s "index");
         ("middle", new_stable h s "middle"); ("ring", new_stable h s "ring");
         ("pinky", new_stable h s "pinky")]
    ∧ draw_info format_1f height (Some (dict_items stable_states)) fps s'
      = [Draw.mk "ESP32: CONNECTED" (10, 30)%Z 0.7%float (0, 255, 0)%Z 2;
         Draw.mk ("FPS: " +:+ format_1f fps) (10, 60)%Z 0.6%float (255, 255, 255)%Z 2;
         finger_line "thumb" (new_stable h s "thumb") 100;
         finger_line "index" (new_stable h s "index") 125;
         finger_line "middle" (new_stable h s "middle") 150;
         finger_line "ring" (new_stable h s "ring") 175;
         finger_line "pinky" (new_stable h s "pinky") 200;
         Draw.mk "Press ESC to exit" (10, height - 20)%Z 0.5%float (255, 255, 255)%Z 1]
    ∧ Draw.text (finger_line "thumb" (new_stable h s "thumb") 100)
      = "Thumb: " +:+ (if truthy (new_stable h s "thumb") then "UP" else "DOWN").
Proof.
  intros Hconn Hwf.
  exists (PyDict (stable_states_of h s) FINGERS), (cycle h s), (cycle_events h s).
  assert (dict_items (PyDict (stable_states_of h s) FINGERS)
          = (λ f, (f, new_stable h s f)) <$> FINGERS) as Hitems.
  { unfold dict_items, FINGERS. cbn [dict_map dict_keys omap list_omap fmap list_fmap].
    by rewrite !stable_states_of_lookup by finger_mem. }
  split; [by apply process_gestures_ordered_cycle|].
  split; [by apply process_gestures_cycle|].
  split; [done|]. cbn [dict_map dict_keys]. split.
  { intros key. destruct (decide (key ∈ FINGERS)) as [Hkey|Hkey].
    - by rewrite stable_states_of_lookup.
    - rewrite stable_states_of_lookup_other by done. split; [by intros []|done]. }
  split; [apply stable_states_of_lookup_other; unfold FINGERS; set_solver|].
  split; [exact Hitems|]. split; [|done].
  rewrite Hitems. reflexivity.
Qed.

Lemma draw_info_after_cycle_witness :
  ∃ (stable_states : pydict (option bool)) (s' : State) (ev : list Event),
    process_gestures_ordered (pose false true false false false) after_two_cycles
    = (Ok (Some stable_states), s', ev)
    ∧ process_gestures (pose false true false false false) after_two_cycles
      = (Ok (Some (dict_map stable_states)), s', ev)
    ∧ dict_keys stable_states = ["thumb"; "index"; "middle"; "ring"; "pinky"]
    ∧ (∀ key, is_Some (dict_map stable_states !! key) ↔ key ∈ dict_keys stable_states)
    ∧ dict_map stable_states !! "all_down" = None
    ∧ dict_items stable_states
      = [("thumb", new_stable (pose false true false false false) after_two_cycles
                     "thumb");
         ("index", new_stable (pose false true false false false) after_two_cycles
                     "index");
         ("middle", new_stable (pose false true false false false) after_two_cycles
                      "middle");
         ("ring", new_stable (pose false true false false false) after_two_cycles
                    "ring");
         ("pinky", new_stable (pose false true false false false) after_two_cycles
                     "pinky")]
    ∧ draw_info (λ _, "30.0") 480 (Some (dict_items stable_states)) 30 s'
      = [Draw.mk "ESP32: CONNECTED" (10, 30)%Z 0.7%float (0, 255, 0)%Z 2;
         Draw.mk ("FPS: " +:+ "30.0") (10, 60)%Z 0.6%float (255, 255, 255)%Z 2;
         finger_line "thumb"
           (new_stable (pose false true false false false) after_two_cycles "thumb") 100;
         finger_line "index"
           (new_stable (pose false true false false false) after_two_cycles "index") 125;
         finger_line "middle"
           (new_stable (pose false true false false false) after_two_cycles "middle") 150;
         finger_line "ring"
           (new_stable (pose false true false false false) after_two_cycles "ring") 175;
         finger_line "pinky"
           (new_stable (pose false true false false false) after_two_cycles "pinky") 200;
         Draw.mk "Press ESC to exit" (10, 480 - 20)%Z 0.5%float (255, 255, 255)%Z 1]
    ∧ Draw.text (finger_line "thumb"
                   (new_stable (pose false true false false false)
                      after_two_cycles "thumb") 100)
      = "Thumb: "
        +:+ (if truthy (new_stable (pose false true false false false)
                          after_two_cycles "thumb")
             then "UP" else "DOWN").
Proof.
  apply (draw_info_after_cycle (λ _, "30.0") 480 30
           (pose false true false false false) after_two_cycles).
  - reflexivity.
  - exact after_two_cycles_wf.
Defined.

Lemma control_loop_never_raises_witness :
  is_Some (prev_states
             (final_state initial_state
                [Check 10 (Response 200 "OK");
                 Frame (pose false true false false false)]) !! "index")
  ∧ ∃ d, gesture_buffer
           (final_state initial_state
              [Check 10 (Response 200 "OK");
               Frame (pose false true false false false)]) !! "index" = Some d
         ∧ maxlen d = 3 ∧ length (items d) ≤ 3.
Proof.
  apply (proj1 (control_loop_never_raises
                  [Check 10 (Response 200 "OK");
                   Frame (pose false true false false false)]
                  (Frame (pose false true false false false))) "index").
  unfold FINGERS. set_solver.
Defined.

Lemma send_bounded_and_targeted_witness :
  "http://192.168.4.1/led/thumb/on" = BASE_URL +:+ "/led/" +:+ "thumb/on"
  ∧ 1%float = REQUEST_TIMEOUT.
Proof.
  apply (proj2 (send_bounded_and_targeted always_timeout "thumb/on" MAX_RETRIES)
           "http://192.168.4.1/led/thumb/on" 1%float).
  vm_compute. left.
Defined.

(** ** Scenarios *)

Lemma new_stable_concrete h s f w p b :
  wf_state s → f ∈ FINGERS →
  items (window s f) = w → recorded s f = p → raw_reading h f = b →
  new_stable h s f = stable_of (deque_append (Deque w 3) b) p
  ∧ items (window (cycle h s) f) = items (deque_append (Deque w 3) b).
Proof.
  intros Hwf Hf Hw Hp Hb. destruct (wf_window s f Hwf Hf) as [_ Hcap].
  assert (window s f = Deque w 3) as Hwin.
  { destruct (window s f) as [its cap]. cbn in Hw, Hcap. by subst. }
  rewrite cycle_window by done. unfold new_stable, new_window.
  by rewrite Hwin, Hp, Hb.
Qed.

Lemma all_down_recorded h s :
  recorded (cycle h s) "all_down" = Some (negb (any_values (stable_states_of h s))).
Proof. unfold recorded, dict_get, cycle. cbn [prev_states]. by rewrite lookup_insert_eq. Qed.

Lemma all_off_events_recorded all_down s :
  all_off_events all_down (prev_states s)
  = if all_down && negb (truthy (recorded s "all_down"))
    then [StartThread "all/off" MAX_RETRIES; Log INFO "All fingers down - all LEDs OFF"]
    else [].
Proof.
  unfold all_off_events, recorded, dict_get.
  by destruct (prev_states s !! "all_down").
Qed.

(** The events and the next recorded [all_down] of a cycle, from the new
    stable states [n] and the recorded states [p] of the five fingers. *)
Lemma cycle_events_concrete h s (n p : string → option bool) :
  (∀ f, f ∈ FINGERS → new_stable h s f = n f) →
  (∀ f, f ∈ FINGERS → recorded s f = p f) →
  let all_down :=
    negb (truthy (n "thumb") || truthy (n "index") || truthy (n "middle")
          || truthy (n "ring") || truthy (n "pinky")) in
  cycle_events h s
  = change_command "thumb" (n "thumb") (p "thumb")
    ++ change_command "index" (n "index") (p "index")
    ++ change_command "middle" (n "middle") (p "middle")
    ++ change_command "ring" (n "ring") (p "ring")
    ++ change_command "pinky" (n "pinky") (p "pinky")
    ++ (if all_down && negb (truthy (recorded s "all_down"))
        then [StartThread "all/off" MAX_RETRIES;
              Log INFO "All fingers down - all LEDs OFF"]
        else [])
  ∧ recorded (cycle h s) "all_down" = Some all_down.
Proof.
  intros Hn Hp all_down.
  assert (any_values (stable_states_of h s) = negb all_down) as Hany.
  { unfold all_down, stable_states_of.
    rewrite (Hn "thumb"), (Hn "index"), (Hn "middle"), (Hn "ring"), (Hn "pinky")
      by finger_mem.
    generalize (n "thumb") (n "index") (n "middle") (n "ring") (n "pinky").
    intros [[]|] [[]|] [[]|] [[]|] [[]|]; vm_compute; reflexivity. }
  unfold cycle_events.
  rewrite all_off_events_recorded, all_down_recorded, Hany, negb_involutive.
  rewrite (Hn "thumb"), (Hn "index"), (Hn "middle"), (Hn "ring"), (Hn "pinky")
    by finger_mem.
  rewrite (Hp "thumb"), (Hp "index"), (Hp "middle"), (Hp "ring"), (Hp "pinky")
    by finger_mem.
  split; reflexivity.
Qed.

Lemma settled_cycle b h s :
  esp32_connected s = true → wf_state s → settled b s →
  (∀ f, f ∈ FINGERS → raw_reading h f = b f) →
  cycle_events h s = [] ∧ settled b (cycle h s).
Proof.
  intros Hconn Hwf [Hfingers Hdown] Hraw.
  assert (∀ f, f ∈ FINGERS →
               new_stable h s f = Some (b f)
               ∧ items (window (cycle h s) f) = [b f; b f; b f]) as Hnew.
  { intros f Hf. destruct (Hfingers f Hf) as [Hw Hp].
    destruct (new_stable_concrete h s f _ _ _ Hwf Hf Hw Hp (Hraw f Hf)) as [-> ->].
    by destruct (b f). }
  destruct (cycle_events_concrete h s (λ f, Some (b f)) (λ f, Some (b f)))
    as [Hev Hrec]; [intros f Hf; by apply Hnew|intros f Hf; by apply Hfingers|].
  cbv beta in Hev, Hrec. cbn [truthy] in Hev, Hrec.
  split.
  - rewrite Hev, Hdown.
    destruct (b "thumb"), (b "index"), (b "middle"), (b "ring"), (b "pinky");
      reflexivity.
  - split.
    + intros f Hf. destruct (Hnew f Hf) as [Hns Hitems]. split; [done|].
      by rewrite cycle_recorded.
    + rewrite Hrec.
      by destruct (b "thumb"), (b "index"), (b "middle"), (b "ring"), (b "pinky").
Qed.

(** X21: a steady hand is silent. Once the controller has settled on a
    set of readings, any number of further cycles with the same readings
    dispatch no command at all: commands go out on changes only. *)
Theorem steady_hand_is_silent (b : string → bool) (hs : list NormalizedLandmarkList)
    (s : State) :
  esp32_connected s = true → wf_state s → settled b s →
  (∀ h f, h ∈ hs → f ∈ FINGERS → raw_reading h f = b f) →
  commands_of_run (run s (Frame <$> hs)) = []
  ∧ settled b (final_state s (Frame <$> hs)).
Proof.
  revert s. induction hs as [|h hs IH]; intros s Hconn Hwf Hsettled Hraw; [done|].
  destruct (settled_cycle b h s Hconn Hwf Hsettled) as [Hev Hsettled'].
  { intros f Hf. apply Hraw; [by left|done]. }
  pose proof (step_frame_connected h s Hconn Hwf) as Hstep. rewrite Hev in Hstep.
  cbn [fmap list_fmap run]. rewrite Hstep, (final_state_cons _ _ _ _ _ Hstep).
  apply (IH (cycle h s)); [done|by apply cycle_wf|done|].
  intros h' f Hh' Hf. apply Hraw; [by right|done].
Qed.

Lemma steady_hand_is_silent_witness :
  commands_of_run
    (run (cycle (pose false true false false false) after_two_cycles)
       (Frame <$> [pose false true false false false;
                   pose false true false false false])) = [].
Proof.
  refine (proj1 (steady_hand_is_silent (λ f, bool_decide (f = "index"))
                   [pose false true false false false;
                    pose false true false false false]
                   (cycle (pose false true false false false) after_two_cycles)
                   _ _ _ _)).
  - reflexivity.
  - apply cycle_wf, after_two_cycles_wf.
  - split; [|vm_compute; reflexivity].
    intros f Hf. unfold FINGERS in Hf.
    repeat (apply elem_of_cons in Hf as [->|Hf]);
      [split; vm_compute; reflexivity..|].
    by apply elem_of_nil in Hf.
  - intros h f Hh Hf. unfold FINGERS in Hf.
    repeat (apply elem_of_cons in Hh as [->|Hh]); [..|by apply elem_of_nil in Hh];
      (repeat (apply elem_of_cons in Hf as [->|Hf]);
       [vm_compute; reflexivity..|by apply elem_of_nil in Hf]).
Defined.

(** X22: releasing the whole hand. From globals settled on all five
    fingers up, three consecutive cycles that read every finger down
    dispatch nothing in the first two and, in the third, the five "off"
    commands in the order thumb, index, middle, ring, pinky followed by
    "all/off", each exactly once. *)
Theorem release_scenario_commands (h1 h2 h3 : NormalizedLandmarkList) (s : State) :
  esp32_connected s = true → wf_state s → settled (λ _, true) s →
  (∀ h f, h ∈ [h1; h2; h3] → f ∈ FINGERS → raw_reading h f = false) →
  commands_per_step (run s [Frame h1; Frame h2; Frame h3])
  = [ []; [];
      ["thumb/off"; "index/off"; "middle/off"; "ring/off"; "pinky/off"; "all/off"] ].
Proof.
  intros Hconn Hwf [Hfingers Hdown] Hraw.
  assert (∀ f, f ∈ FINGERS → raw_reading h1 f = false) as Hraw1
    by (intros f; apply Hraw; left).
  assert (∀ f, f ∈ FINGERS → raw_reading h2 f = false) as Hraw2
    by (intros f; apply Hraw; right; left).
  assert (∀ f, f ∈ FINGERS → raw_reading h3 f = false) as Hraw3
    by (intros f; apply Hraw; right; right; left).
  clear Hraw. cbv beta in Hfingers.
  pose proof (cycle_wf h1 s Hwf) as Hwf1.
  pose proof (cycle_wf h2 _ Hwf1) as Hwf2.
  assert (∀ f, f ∈ FINGERS →
               new_stable h1 s f = Some true
               ∧ items (window (cycle h1 s) f) = [true; true; false]) as Hnew1.
  { intros f Hf. destruct (Hfingers f Hf) as [Hw Hp].
    destruct (new_stable_concrete h1 s f _ _ _ Hwf Hf Hw Hp (Hraw1 f Hf))
      as [Hns Hitems].
    rewrite Hns, Hitems. split; reflexivity. }
  assert (∀ f, f ∈ FINGERS → recorded (cycle h1 s) f = Some true) as Hrec1.
  { intros f Hf. rewrite cycle_recorded by exact Hf. by apply Hnew1. }
  assert (∀ f, f ∈ FINGERS →
               new_stable h2 (cycle h1 s) f = Some true
               ∧ items (window (cycle h2 (cycle h1 s)) f) = [true; false; false])
    as Hnew2.
  { intros f Hf. destruct (Hnew1 f Hf) as [_ Hw].
    destruct (new_stable_concrete h2 (cycle h1 s) f _ _ _ Hwf1 Hf Hw (Hrec1 f Hf)
                (Hraw2 f Hf)) as [Hns Hitems].
    rewrite Hns, Hitems. split; reflexivity. }
  assert (∀ f, f ∈ FINGERS → recorded (cycle h2 (cycle h1 s)) f = Some true) as Hrec2.
  { intros f Hf. rewrite cycle_recorded by exact Hf. by apply Hnew2. }
  assert (∀ f, f ∈ FINGERS →
               new_stable h3 (cycle h2 (cycle h1 s)) f = Some false) as Hnew3.
  { intros f Hf. destruct (Hnew2 f Hf) as [_ Hw].
    destruct (new_stable_concrete h3 (cycle h2 (cycle h1 s)) f _ _ _ Hwf2 Hf Hw
                (Hrec2 f Hf) (Hraw3 f Hf)) as [Hns _].
    rewrite Hns. reflexivity. }
  assert (∀ f, f ∈ FINGERS → new_stable h1 s f = Some true) as Hn1
    by (intros f Hf; by apply Hnew1).
  assert (∀ f, f ∈ FINGERS → new_stable h2 (cycle h1 s) f = Some true) as Hn2
    by (intros f Hf; by apply Hnew2).
  assert (∀ f, f ∈ FINGERS → recorded s f = Some true) as Hrec0
    by (intros f Hf; by apply Hfingers).
  destruct (cycle_events_concrete h1 s (λ _, Some true) (λ _, Some true) Hn1 Hrec0)
    as [Hev1 _].
  destruct (cycle_events_concrete h2 (cycle h1 s) (λ _, Some true) (λ _, Some true)
              Hn2 Hrec1) as [Hev2 Hdown2].
  destruct (cycle_events_concrete h3 (cycle h2 (cycle h1 s)) (λ _, Some false)
              (λ _, Some true) Hnew3 Hrec2) as [Hev3 _].
  rewrite Hdown2 in Hev3.
  cbn [run].
  rewrite (step_frame_connected h1 s Hconn Hwf).
  rewrite (step_frame_connected h2 (cycle h1 s) eq_refl Hwf1).
  rewrite (step_frame_connected h3 (cycle h2 (cycle h1 s)) eq_refl Hwf2).
  unfold commands_per_step. cbn [map snd]. rewrite Hev1, Hev2, Hev3.
  reflexivity.
Qed.

Lemma release_scenario_commands_witness :
  commands_per_step
    (run all_up_state
       [Frame (pose false false false false false);
        Frame (pose false false false false false);
        Frame (pose false false false false false)])
  = [ []; [];
      ["thumb/off"; "index/off"; "middle/off"; "ring/off"; "pinky/off"; "all/off"] ].
Proof.
  apply (release_scenario_commands (pose false false false false false)
           (pose false false false false false)
           (pose false false false false false) all_up_state).
  - vm_compute. reflexivity.
  - apply final_state_wf, connected_state_wf.
  - split; [|vm_compute; reflexivity].
    intros f Hf. unfold FINGERS in Hf.
    repeat (apply elem_of_cons in Hf as [->|Hf]);
      [split; vm_compute; reflexivity..|].
    by apply elem_of_nil in Hf.
  - intros h f Hh Hf. unfold FINGERS in Hf.
    repeat (apply elem_of_cons in Hh as [->|Hh]); [..|by apply elem_of_nil in Hh];
      (repeat (apply elem_of_cons in Hf as [->|Hf]);
       [vm_compute; reflexivity..|by apply elem_of_nil in Hf]).
Defined.
